(** * siem-rag-agent: a shallow embedding of [app.py] and [agent.py]

    The application uploads a JSON array of log records, stores one
    document per record in a vector store, and answers questions by
    retrieving the most similar documents and handing them to a
    language-model agent.

    Layout of this development:
    - Python values: [str] (sequences of code points), [int] ([Z]),
      JSON trees, and the text codec [json.dumps] / [json.loads];
    - the process state (environment, vector store, Streamlit output,
      requests sent to the model) and a state-and-exception monad;
    - [agent.py]: [analyze_logs_with_agent];
    - [app.py]: the upload handler, [get_relevant_chunks], the query
      handler;
    - the properties. *)

From Stdlib Require Import ZArith NArith List Ascii String Lia.
From Stdlib Require Import Floats.SpecFloat.
From stdpp Require Import gmap strings list fin_maps sorting.

Set Default Proof Using "Type".
Set Warnings "-register-all".
Local Open Scope N_scope.

(* ===================================================================== *)
(** * Python strings *)
(* ===================================================================== *)

(** A Python [str] is a sequence of Unicode code points. *)
Definition str := list N.

(** Source-text literals are ASCII; [py] turns one into a [str]. *)
Definition py (s : string) : str :=
  map N_of_ascii (list_ascii_of_string s).

(** Code points that the codec names. *)
Definition QUOTE : N := 34.      (* the double quote *)
Definition BACKSLASH : N := 92.
Definition NL : N := 10.
Definition SPACE : N := 32.

(** A Unicode scalar value: a code point that is not a surrogate. *)
Definition is_scalar (c : N) : bool :=
  (c <? 0xd800) || ((0xdfff <? c) && (c <? 0x110000)).

(** [str.isdigit] restricted to what the number grammar uses: [0-9]. *)
Definition is_digit (c : N) : bool := (48 <=? c) && (c <=? 57).

(** One lower-case hexadecimal digit. *)
Definition hex_digit (d : N) : N := if d <? 10 then 48 + d else 87 + d.

(** ['{0:04x}'.format(n)] for [n < 0x10000]. *)
Definition hex4 (n : N) : str :=
  [hex_digit (n / 4096 mod 16); hex_digit (n / 256 mod 16);
   hex_digit (n / 16 mod 16); hex_digit (n mod 16)].

(** ** [int.__repr__] and [int(text)] for non-negative numbers *)

(** Decimal digits, least significant first, consed onto [acc]. *)
Fixpoint digits_acc (fuel : nat) (n : N) (acc : str) : str :=
  match fuel with
  | O => acc
  | S fuel' =>
      let acc' := (48 + n mod 10) :: acc in
      if n <? 10 then acc' else digits_acc fuel' (n / 10) acc'
  end.

(** A number below [2 ^ size] has at most [size] decimal digits. *)
Definition repr_N (n : N) : str :=
  digits_acc (S (N.to_nat (N.size n))) n [].

(** [int.__repr__]. *)
Definition repr_int (z : Z) : str :=
  match z with
  | Z0 => py "0"
  | Zpos p => repr_N (Npos p)
  | Zneg p => 45 :: repr_N (Npos p)
  end.

(** [int(digits)] for a run of decimal digits. *)
Definition int_of_digits (ds : str) : N :=
  fold_left (fun acc d => 10 * acc + (d - 48)) ds 0.

(** [len(x)] rendered inside an f-string. *)
Definition repr_nat (n : nat) : str := repr_N (N.of_nat n).

(* ===================================================================== *)
(** * JSON values *)
(* ===================================================================== *)

(** What [json.load] / [json.loads] build: [None], [bool], [int],
    [float], [str], [list] and [dict] with [str] keys.  A [dict] is kept
    as its items in insertion order. *)
Inductive json : Type :=
| JNull
| JBool (b : bool)
| JInt (n : Z)
| JFloat (f : spec_float)
| JStr (s : str)
| JList (l : list json)
| JDict (d : list (str * json)).

(** [d[k] = v] on the item list: an existing key keeps its position and
    takes the new value, a new key is appended. *)
Fixpoint dict_set (d : list (str * json)) (k : str) (v : json)
  : list (str * json) :=
  match d with
  | [] => [(k, v)]
  | (k', v') :: d' =>
      if decide (k' = k) then (k, v) :: d' else (k', v') :: dict_set d' k v
  end.

(** [dict(pairs)]. *)
Definition dict_of_pairs (pairs : list (str * json)) : list (str * json) :=
  fold_left (fun d kv => dict_set d kv.1 kv.2) pairs [].

(** Decimal text of floats is produced and read by the Python runtime
    ([float.__repr__] and [float(text)]); both are taken as given. *)
Class PyFloat := {
  float_repr : spec_float -> str;
  parse_float : str -> spec_float
}.

(* ===================================================================== *)
(** * [json.dumps] *)
(* ===================================================================== *)

(** The replacement [encode_basestring_ascii] makes for one code point:
    printable ASCII other than the quote and the backslash stays, the
    rest is escaped, above the basic plane as a surrogate pair. *)
Definition escape_char (c : N) : str :=
  if c =? QUOTE then [BACKSLASH; QUOTE]
  else if c =? BACKSLASH then [BACKSLASH; BACKSLASH]
  else if c =? 10 then [BACKSLASH; 110]
  else if c =? 13 then [BACKSLASH; 114]
  else if c =? 9 then [BACKSLASH; 116]
  else if c =? 8 then [BACKSLASH; 98]
  else if c =? 12 then [BACKSLASH; 102]
  else if (32 <=? c) && (c <=? 126) then [c]
  else if c <? 0x10000 then BACKSLASH :: 117 :: hex4 c
  else
    let n := c - 0x10000 in
    let s1 := N.lor 0xd800 (N.land (N.shiftr n 10) 0x3ff) in
    let s2 := N.lor 0xdc00 (N.land n 0x3ff) in
    (BACKSLASH :: 117 :: hex4 s1) ++ (BACKSLASH :: 117 :: hex4 s2).

Definition encode_basestring_ascii (s : str) : str :=
  QUOTE :: flat_map escape_char s ++ [QUOTE].

(** [', '.join(parts)] and friends. *)
Fixpoint join (sep : str) (parts : list str) : str :=
  match parts with
  | [] => []
  | [p] => p
  | p :: ps => p ++ sep ++ join sep ps
  end.

Section Codec.
Context `{PyFloat}.

(** [floatstr] of the encoder (with [allow_nan], the default). *)
Definition floatstr (f : spec_float) : str :=
  match f with
  | S754_nan => py "NaN"
  | S754_infinity false => py "Infinity"
  | S754_infinity true => py "-Infinity"
  | _ => float_repr f
  end.

(** The encoder.  [indent = None] is [json.dumps(x)]: items separated by
    [", "], keys by [": "].  [indent = Some n] is [json.dumps(x, indent=n)]:
    one item per line, [n] spaces per nesting level, items separated by
    [","]. *)
Fixpoint iterencode (indent : option nat) (level : nat) (x : json) : str :=
  let newline_indent lvl :=
    match indent with
    | None => []
    | Some n => NL :: repeat SPACE (n * lvl)
    end in
  let item_separator lvl :=
    match indent with
    | None => py ", "
    | Some _ => 44 :: newline_indent lvl
    end in
  match x with
  | JNull => py "null"
  | JBool true => py "true"
  | JBool false => py "false"
  | JInt n => repr_int n
  | JFloat f => floatstr f
  | JStr s => encode_basestring_ascii s
  | JList [] => py "[]"
  | JList l =>
      91 :: newline_indent (S level)
         ++ join (item_separator (S level))
                 (map (iterencode indent (S level)) l)
         ++ newline_indent level ++ [93]
  | JDict [] => py "{}"
  | JDict d =>
      123 :: newline_indent (S level)
          ++ join (item_separator (S level))
                  (map (fun kv => encode_basestring_ascii kv.1 ++ py ": "
                                  ++ iterencode indent (S level) kv.2) d)
          ++ newline_indent level ++ [125]
  end.

(** [json.dumps(x)]. *)
Definition json_dumps (x : json) : str := iterencode None 0 x.

(** [json.dumps(x, indent=2, default=str)]; [default] is only consulted
    for objects that are not JSON values, and there are none here. *)
Definition json_dumps_indent2 (x : json) : str := iterencode (Some 2%nat) 0 x.

End Codec.

(* ===================================================================== *)
(** * [json.loads] *)
(* ===================================================================== *)

(** The scanner works on the text that is left; a result carries the
    value read and the text after it.  [None] stands for the decoder
    raising [json.JSONDecodeError].  The configurable limits of the
    interpreter (recursion depth, number of digits of an integer) are not
    part of this model: nesting and integers are unbounded. *)

(** [WHITESPACE = [ \t\n\r]*]. *)
Definition is_ws (c : N) : bool :=
  (c =? 32) || (c =? 9) || (c =? 10) || (c =? 13).

Fixpoint skip_ws (s : str) : str :=
  match s with
  | c :: s' => if is_ws c then skip_ws s' else s
  | [] => []
  end.

(** [s.startswith(p)], returning what follows [p]. *)
Fixpoint strip_prefix (p s : str) : option str :=
  match p, s with
  | [], _ => Some s
  | a :: p', b :: s' => if a =? b then strip_prefix p' s' else None
  | _ :: _, [] => None
  end.

(** ** Strings: [py_scanstring] with [strict=True] *)

(** Value of one hexadecimal digit, [0-9A-Fa-f]. *)
Definition hexval (c : N) : option N :=
  if (48 <=? c) && (c <=? 57) then Some (c - 48)
  else if (97 <=? c) && (c <=? 102) then Some (c - 87)
  else if (65 <=? c) && (c <=? 70) then Some (c - 55)
  else None.

(** [_decode_uXXXX] on the four characters after [\u]. *)
Definition decode_uXXXX (a b c d : N) : option N :=
  match hexval a, hexval b, hexval c, hexval d with
  | Some x, Some y, Some z, Some w => Some (4096 * x + 256 * y + 16 * z + w)
  | _, _, _, _ => None
  end.

(** The table [BACKSLASH] of one-letter escapes. *)
Definition backslash_escape (esc : N) : option N :=
  if esc =? QUOTE then Some QUOTE
  else if esc =? BACKSLASH then Some BACKSLASH
  else if esc =? 47 then Some 47
  else if esc =? 98 then Some 8
  else if esc =? 102 then Some 12
  else if esc =? 110 then Some 10
  else if esc =? 114 then Some 13
  else if esc =? 116 then Some 9
  else None.

Definition cons_char (c : N) (r : option (str * str)) : option (str * str) :=
  match r with
  | Some (k, rest) => Some (c :: k, rest)
  | None => None
  end.

(** The text starts just after the opening quote. *)
Fixpoint scanstring (s : str) : option (str * str) :=
  match s with
  | [] => None                                    (* unterminated *)
  | c :: s1 =>
    if c =? QUOTE then Some ([], s1)
    else if c <? 32 then None                     (* control character *)
    else if negb (c =? BACKSLASH) then cons_char c (scanstring s1)
    else
      match s1 with
      | [] => None
      | esc :: s2 =>
        if negb (esc =? 117) then
          match backslash_escape esc with
          | Some ch => cons_char ch (scanstring s2)
          | None => None
          end
        else
          match s2 with
          | a :: b :: c' :: d :: s3 =>
            match decode_uXXXX a b c' d with
            | None => None
            | Some uni =>
              if (0xd800 <=? uni) && (uni <=? 0xdbff) then
                match s3 with
                | bs :: u :: e :: f :: g :: h :: s5 =>
                  if (bs =? BACKSLASH) && (u =? 117) then
                    match decode_uXXXX e f g h with
                    | None => None
                    | Some uni2 =>
                      if (0xdc00 <=? uni2) && (uni2 <=? 0xdfff) then
                        cons_char
                          (0x10000 + N.lor (N.shiftl (uni - 0xd800) 10)
                                           (uni2 - 0xdc00))
                          (scanstring s5)
                      else cons_char uni (scanstring s3)
                    end
                  else cons_char uni (scanstring s3)
                | bs :: u :: _ =>
                  if (bs =? BACKSLASH) && (u =? 117) then None
                  else cons_char uni (scanstring s3)
                | _ => cons_char uni (scanstring s3)
                end
              else cons_char uni (scanstring s3)
            end
          | _ => None
          end
      end
  end.

(** ** Numbers: [NUMBER_RE] *)

Fixpoint span_digits (s : str) : str * str :=
  match s with
  | c :: s' =>
      if is_digit c
      then let '(ds, rest) := span_digits s' in (c :: ds, rest)
      else ([], s)
  | [] => ([], [])
  end.

(** The integer group: an optional minus sign, then either a single [0]
    or a non-zero digit followed by digits.  Returns sign, digits, and
    what follows. *)
Definition match_integer (s : str) : option (bool * str * str) :=
  let '(neg, s1) :=
    match s with
    | c :: s' => if c =? 45 then (true, s') else (false, s)
    | [] => (false, s)
    end in
  match s1 with
  | c :: s2 =>
      if c =? 48 then Some (neg, [48], s2)
      else if is_digit c
           then let '(ds, rest) := span_digits s2 in Some (neg, c :: ds, rest)
           else None
  | [] => None
  end.

(** [(\.[0-9]+)?]: the group (empty when absent), what follows. *)
Definition match_frac (s : str) : str * str :=
  match s with
  | c :: s1 =>
      if c =? 46 then
        match span_digits s1 with
        | ([], _) => ([], s)
        | (ds, rest) => (c :: ds, rest)
        end
      else ([], s)
  | [] => ([], s)
  end.

(** [([eE][-+]?[0-9]+)?]. *)
Definition match_exp (s : str) : str * str :=
  match s with
  | c :: s1 =>
      if (c =? 101) || (c =? 69) then
        let '(sign, s2) :=
          match s1 with
          | d :: s2' => if (d =? 45) || (d =? 43) then ([d], s2') else ([], s1)
          | [] => ([], s1)
          end in
        match span_digits s2 with
        | ([], _) => ([], s)
        | (ds, rest) => (c :: sign ++ ds, rest)
        end
      else ([], s)
  | [] => ([], s)
  end.

(** [int(integer)]. *)
Definition parse_int (neg : bool) (ds : str) : Z :=
  if neg then Z.opp (Z.of_N (int_of_digits ds)) else Z.of_N (int_of_digits ds).

Section Decoder.
Context `{PyFloat}.

Definition scan_number (s : str) : option (json * str) :=
  match match_integer s with
  | None => None
  | Some (neg, ds, s1) =>
      let '(frac, s2) := match_frac s1 in
      let '(exp, s3) := match_exp s2 in
      let integer := (if neg then [45] else []) ++ ds in
      match frac, exp with
      | [], [] => Some (JInt (parse_int neg ds), s3)
      | _, _ => Some (JFloat (parse_float (integer ++ frac ++ exp)), s3)
      end
  end.

(** [_scan_once], [JSONArray] and [JSONObject].  [array_items] starts at
    the first character of an item, [object_items] just after the opening
    quote of a key. *)
Fixpoint scan_once (fuel : nat) (s : str) {struct fuel} : option (json * str) :=
  match fuel with
  | O => None
  | S n =>
    match s with
    | [] => None
    | c :: s1 =>
      if c =? QUOTE then
        match scanstring s1 with
        | Some (k, rest) => Some (JStr k, rest)
        | None => None
        end
      else if c =? 123 then
        match skip_ws s1 with
        | c2 :: s2 =>
            if c2 =? 125 then Some (JDict [], s2)
            else if c2 =? QUOTE then
              match object_items n s2 with
              | Some (pairs, rest) => Some (JDict (dict_of_pairs pairs), rest)
              | None => None
              end
            else None
        | [] => None
        end
      else if c =? 91 then
        match skip_ws s1 with
        | c2 :: s2 =>
            if c2 =? 93 then Some (JList [], s2)
            else
              match array_items n (c2 :: s2) with
              | Some (values, rest) => Some (JList values, rest)
              | None => None
              end
        | [] => None
        end
      else
        match strip_prefix (py "null") s with
        | Some rest => Some (JNull, rest)
        | None =>
        match strip_prefix (py "true") s with
        | Some rest => Some (JBool true, rest)
        | None =>
        match strip_prefix (py "false") s with
        | Some rest => Some (JBool false, rest)
        | None =>
        match scan_number s with
        | Some r => Some r
        | None =>
        match strip_prefix (py "NaN") s with
        | Some rest => Some (JFloat S754_nan, rest)
        | None =>
        match strip_prefix (py "Infinity") s with
        | Some rest => Some (JFloat (S754_infinity false), rest)
        | None =>
        match strip_prefix (py "-Infinity") s with
        | Some rest => Some (JFloat (S754_infinity true), rest)
        | None => None
        end end end end end end end
    end
  end

with array_items (fuel : nat) (s : str) {struct fuel}
  : option (list json * str) :=
  match fuel with
  | O => None
  | S n =>
    match scan_once n s with
    | None => None
    | Some (value, s1) =>
      match skip_ws s1 with
      | c :: s2 =>
          if c =? 93 then Some ([value], s2)
          else if c =? 44 then
            match array_items n (skip_ws s2) with
            | Some (values, rest) => Some (value :: values, rest)
            | None => None
            end
          else None
      | [] => None
      end
    end
  end

with object_items (fuel : nat) (s : str) {struct fuel}
  : option (list (str * json) * str) :=
  match fuel with
  | O => None
  | S n =>
    match scanstring s with
    | None => None
    | Some (key, s1) =>
      match skip_ws s1 with
      | c :: s2 =>
          if c =? 58 then
            match scan_once n (skip_ws s2) with
            | None => None
            | Some (value, s3) =>
              match skip_ws s3 with
              | d :: s4 =>
                  if d =? 125 then Some ([(key, value)], s4)
                  else if d =? 44 then
                    match skip_ws s4 with
                    | q :: s5 =>
                        if q =? QUOTE then
                          match object_items n s5 with
                          | Some (pairs, rest) => Some ((key, value) :: pairs, rest)
                          | None => None
                          end
                        else None
                    | [] => None
                    end
                  else None
              | [] => None
              end
            end
          else None
      | [] => None
      end
    end
  end.

(** [json.loads(s)]: one value, surrounded by optional white space. *)
Definition json_loads (s : str) : option json :=
  match scan_once (S (length s)) (skip_ws s) with
  | Some (obj, rest) =>
      match skip_ws rest with
      | [] => Some obj
      | _ :: _ => None
      end
  | None => None
  end.

End Decoder.

(** A stand-in runtime for running examples: every float prints as [0.0]
    and every float literal reads as [0.0]. *)
Definition toy_float : PyFloat :=
  {| float_repr := fun _ => py "0.0";
     parse_float := fun _ => S754_zero false |}.

(* ===================================================================== *)
(** * Documents, responses, exceptions *)
(* ===================================================================== *)

(** [langchain.schema.Document]: text and a metadata [dict]. *)
Record Document := {
  page_content : str;
  metadata : list (str * json)
}.

(** [class LogAnalysisResponse(BaseModel)]. *)
Record LogAnalysisResponse := {
  answer : str;
  relevant_logs : list (list (str * json));
  total_logs_analyzed : Z
}.

(** The exceptions that travel through the two files.  All of them are
    subclasses of [Exception]; [JSONDecodeError] is the one the code names
    in an [except] clause, [UnicodeEncodeError] and [ValueError] are what
    an assignment to [os.environ] can raise, the other three are the
    classes of §7 of the specification. *)
Inductive exception : Type :=
| JSONDecodeError (msg : str)
| UnicodeEncodeError (msg : str)
| ValueError (msg : str)
| StoreNotFoundError (msg : str)
| ProviderError (msg : str)
| SchemaValidationError (msg : str).

(** [str(e)]. *)
Definition exception_str (e : exception) : str :=
  match e with
  | JSONDecodeError msg | UnicodeEncodeError msg | ValueError msg
  | StoreNotFoundError msg | ProviderError msg | SchemaValidationError msg => msg
  end.

(** An embedding: a fixed-length vector of floats, opaque to the code. *)
Definition vector := list spec_float.

(** A stored chunk: the document and the embedding of its text. *)
Record EmbeddedChunk := {
  chunk_doc : Document;
  chunk_vector : vector
}.

(** What Streamlit is asked to draw. *)
Inductive widget : Type :=
| st_error (body : str)
| st_warning (body : str)
| st_info (body : str)
| st_success (body : str)
| st_subheader (body : str)
| st_markdown (body : str)
| st_write (body : str)
| st_json (body : list (str * json))
| st_divider
| st_expander (label : str).

(* ===================================================================== *)
(** * Process state and the monad of the two files *)
(* ===================================================================== *)

Record State := {
  environ : gmap str str;                  (* os.environ *)
  chroma_db : option (list EmbeddedChunk); (* the collection under ./chroma_db *)
  screen : list widget;                    (* widgets drawn so far *)
  requests : list str                      (* prompts sent to the model *)
}.

(** A computation either raises or returns, and in both cases leaves a
    state behind. *)
Definition M (A : Type) : Type := State -> (exception + A) * State.

#[export] Instance M_ret : MRet M := fun A (a : A) σ => (inr a, σ).

#[export] Instance M_bind : MBind M := fun A B (f : A -> M B) (m : M A) σ =>
  match m σ with
  | (inl e, σ') => (inl e, σ')
  | (inr a, σ') => f a σ'
  end.

Definition raise {A} (e : exception) : M A := fun σ => (inl e, σ).

(** [try: body except Exception as e: handler(e)].  A handler for a
    narrower class re-raises what it does not name. *)
Definition try_except {A} (body : M A) (handler : exception -> M A) : M A :=
  fun σ =>
    match body σ with
    | (inl e, σ') => handler e σ'
    | (inr a, σ') => (inr a, σ')
    end.

(** [os.getenv(name)]. *)
Definition os_getenv (name : str) : M (option str) :=
  fun σ => (inr (environ σ !! name), σ).

(** The first code point of [s], from position [i] on, that the
    environment cannot encode: a surrogate outside the range that
    [surrogateescape] maps to a byte. *)
Fixpoint unencodable_at (i : nat) (s : str) : option (nat * N) :=
  match s with
  | [] => None
  | c :: s' =>
      if is_scalar c || ((0xdc80 <=? c) && (c <=? 0xdcff))
      then unencodable_at (S i) s'
      else Some (i, c)
  end.

(** What [os.environ[name] = value] raises for [value], if anything, on a
    POSIX system with a UTF-8 locale: the value is encoded first, then
    handed to [putenv], which takes no NUL character. *)
Definition environ_rejects (value : str) : option exception :=
  match unencodable_at 0 value with
  | Some (i, c) =>
      Some (UnicodeEncodeError
              (py "'utf-8' codec can't encode character '\u" ++ hex4 c
               ++ py "' in position " ++ repr_nat i
               ++ py ": surrogates not allowed"))
  | None =>
      if existsb (N.eqb 0) value
      then Some (ValueError (py "embedded null byte"))
      else None
  end.

(** [os.environ[name] = value], for a name that is an ASCII literal. *)
Definition os_environ_set (name value : str) : M unit :=
  fun σ =>
    match environ_rejects value with
    | Some e => (inl e, σ)
    | None =>
        (inr tt,
         {| environ := <[name := value]> (environ σ);
            chroma_db := chroma_db σ;
            screen := screen σ;
            requests := requests σ |})
    end.

(** The state after one more widget is drawn. *)
Definition draw (w : widget) (σ : State) : State :=
  {| environ := environ σ;
     chroma_db := chroma_db σ;
     screen := screen σ ++ [w];
     requests := requests σ |}.

(** A call of one of the [st.*] drawing functions. *)
Definition show (w : widget) : M unit := fun σ => (inr tt, draw w σ).

(** Truth value of an optional string: [None] and [''] are false. *)
Definition truthy (o : option str) : bool :=
  match o with
  | Some (_ :: _) => true
  | _ => false
  end.

(* ===================================================================== *)
(** * External services *)
(* ===================================================================== *)

(** The embedding provider, the similarity score of the vector store and
    the language-model agent are black boxes.  [embed key text] is one
    embedding request; [similarity q v] is the store's score of a stored
    vector [v] against the query vector [q], larger meaning closer, with
    only its order used; [run_sync env prompt] is
    [log_analysis_agent.run_sync(prompt).output] in a process whose
    environment is [env]: either a response that passed validation against
    [LogAnalysisResponse], or the exception the call ended with. *)
Class Services := {
  embed : str -> str -> exception + vector;
  similarity : vector -> vector -> Z;
  run_sync : gmap str str -> str -> exception + LogAnalysisResponse
}.

Section Program.
Context `{PyFloat} `{Services}.

(* ===================================================================== *)
(** * The vector store *)
(* ===================================================================== *)

(** Stored chunks compared by score against a query vector: [x] goes
    before [y] when it is at least as similar. *)
Definition closer (q : vector) (x y : EmbeddedChunk) : Prop :=
  (similarity q (chunk_vector y) <= similarity q (chunk_vector x))%Z.

#[export] Instance closer_dec q x y : Decision (closer q x y) :=
  Z_le_dec _ _.

(** [embeddings.embed_documents]: one request per text, the first failure
    ends the batch. *)
Fixpoint embed_documents (api_key : str) (documents : list Document)
  : exception + list EmbeddedChunk :=
  match documents with
  | [] => inr []
  | doc :: rest =>
      match embed api_key (page_content doc) with
      | inl e => inl e
      | inr v =>
          match embed_documents api_key rest with
          | inl e => inl e
          | inr chunks => inr ({| chunk_doc := doc; chunk_vector := v |} :: chunks)
          end
      end
  end.

(** Modelled from the spec: [Chroma.from_documents] of the vector-store
    library, which is not part of the repository; §4.2 [ingest(pairs)]:
    an embedding is computed for every text and the chunks are appended to
    the persistent collection, which is created when absent; a provider
    error is raised to the caller.  What a failed ingest leaves in the
    store is not fixed by §4.2: the model aborts before writing, the
    abort-and-report that §4.2 accepts, and the properties below are
    stated for the successful ingest only. *)
Definition ingest (api_key : str) (documents : list Document) : M unit :=
  fun σ =>
    match embed_documents api_key documents with
    | inl e => (inl e, σ)
    | inr chunks =>
        (inr tt,
         {| environ := environ σ;
            chroma_db := Some (default [] (chroma_db σ) ++ chunks);
            screen := screen σ;
            requests := requests σ |})
    end.

(** Modelled from the spec: [Chroma(...)] followed by
    [similarity_search(query, k)] of the vector-store library; §4.2
    [search(query, k)]: fails with [StoreNotFoundError] when the store
    does not exist, otherwise embeds the query and returns the [k] best
    matches, most similar first. *)
Definition search (api_key query : str) (k : nat) : M (list Document) :=
  fun σ =>
    match chroma_db σ with
    | None => (inl (StoreNotFoundError (py "no collection in ./chroma_db")), σ)
    | Some chunks =>
        match embed api_key query with
        | inl e => (inl e, σ)
        | inr q => (inr (chunk_doc <$> take k (merge_sort (closer q) chunks)), σ)
        end
    end.

(* ===================================================================== *)
(** * agent.py *)
(* ===================================================================== *)

(** [json.loads(text)] as a computation. *)
Definition loads (text : str) : M json :=
  match json_loads text with
  | Some value => mret value
  | None => raise (JSONDecodeError (py "Expecting value"))
  end.

(** The loop [for doc in relevant_chunks] of [analyze_logs_with_agent],
    started with the list [context_logs] built so far. *)
Fixpoint context_loop (relevant_chunks : list Document) (context_logs : list json)
  : M (list json) :=
  match relevant_chunks with
  | [] => mret context_logs
  | doc :: rest =>
      context_logs' ←
        try_except
          (log_data ← loads (page_content doc);
           mret (context_logs ++ [log_data]))
          (fun e =>
             match e with
             | JSONDecodeError _ =>
                 mret (context_logs
                         ++ [JDict [(py "raw_content", JStr (page_content doc))]])
             | _ => raise e
             end);
      context_loop rest context_logs'
  end.

(** The f-string [context_text]. *)
Definition context_text (question : str) (context_logs : list json) : str :=
  NL :: py "        Question: " ++ question
  ++ NL :: py "        "
  ++ NL :: py "        Log Entries to Analyze:"
  ++ NL :: py "        " ++ json_dumps_indent2 (JList context_logs)
  ++ NL :: py "        "
  ++ NL :: py "        Please analyze these logs to answer the question. Provide insights, patterns, and specific findings."
  ++ NL :: py "        ".

(** [log_analysis_agent.run_sync(prompt).output]. *)
Definition agent_run_sync (prompt : str) : M LogAnalysisResponse :=
  fun σ =>
    (run_sync (environ σ) prompt,
     {| environ := environ σ;
        chroma_db := chroma_db σ;
        screen := screen σ;
        requests := requests σ ++ [prompt] |}).

(** The body of the [try] block of [analyze_logs_with_agent]. *)
Definition analyze_logs_try (question : str) (relevant_chunks : list Document)
    (api_key : str) : M LogAnalysisResponse :=
  context_logs ← context_loop relevant_chunks [];
  os_environ_set (py "OPENAI_API_KEY") api_key;;
  result ← agent_run_sync (context_text question context_logs);
  mret result.

(** The response the [except] block builds. *)
Definition error_response (e : exception) : LogAnalysisResponse :=
  {| answer := py "Error analyzing logs: " ++ exception_str e;
     relevant_logs := [];
     total_logs_analyzed := 0 |}.

Definition analyze_logs_with_agent (question : str)
    (relevant_chunks : list Document) (api_key : str) : M LogAnalysisResponse :=
  try_except
    (analyze_logs_try question relevant_chunks api_key)
    (fun e => mret (error_response e)).

(* ===================================================================== *)
(** * app.py *)
(* ===================================================================== *)

(** The loop [for i, log_entry in enumerate(json_data)] of the upload
    handler, at index [i] with the list [documents] built so far. *)
Fixpoint documents_loop (i : nat) (json_data : list json)
    (documents : list Document) : list Document :=
  match json_data with
  | [] => documents
  | log_entry :: rest =>
      let text_content := json_dumps log_entry in
      let doc := {| page_content := text_content;
                    metadata := [(py "index", JInt (Z.of_nat i))] |} in
      documents_loop (S i) rest (documents ++ [doc])
  end.

(** The handler of the button "Process JSON Logs" of the upload tab.
    [uploaded_file] is the text of the uploaded file, [None] when nothing
    was uploaded. *)
Definition process_json_logs (uploaded_file : option str) : M unit :=
  api_key ← os_getenv (py "OPENAI_API_KEY");
  match uploaded_file with
  | None => show (st_error (py "Please upload a JSON file"))
  | Some file =>
    if negb (truthy api_key) then
      show (st_error (py "Please enter your OpenAI API key"))
    else
      try_except
        (json_data ← loads file;
         match json_data with
         | JList entries =>
             show (st_info (py "Found " ++ repr_nat (length entries)
                            ++ py " log entries"));;
             let documents := documents_loop 0 entries [] in
             ingest (default [] api_key) documents;;
             show (st_success (0x2705 :: py " Successfully processed "
                               ++ repr_nat (length documents) ++ py " logs!"));;
             show (st_info (py "Embeddings stored in ChromaDB"))
         | _ =>
             show (st_error (py "JSON file should contain an array of objects"))
         end)
        (fun e =>
           match e with
           | JSONDecodeError _ => show (st_error (py "Invalid JSON file"))
           | _ => show (st_error (py "Error: " ++ exception_str e))
           end)
  end.

Definition get_relevant_chunks (question api_key : str) (k : nat)
  : M (list Document) :=
  try_except
    (relevant_docs ← search api_key question k;
     mret relevant_docs)
    (fun e =>
       show (st_error (py "Error fetching relevant chunks: " ++ exception_str e));;
       mret []).

(** The loop over [response.relevant_logs] inside the expander. *)
Fixpoint relevant_logs_loop (i : nat) (logs : list (list (str * json)))
  : M unit :=
  match logs with
  | [] => mret tt
  | log_entry :: rest =>
      show (st_markdown (py "**Relevant Log " ++ repr_nat (i + 1) ++ py ":**"));;
      show (st_json log_entry);;
      show st_divider;;
      relevant_logs_loop (S i) rest
  end.

(** The handler of the button "Analyze Logs" of the chat tab, with the
    text of the question box and the value of the slider. *)
Definition analyze_logs_click (question : str) (num_chunks : nat) : M unit :=
  try_except
    (search_api_key ← os_getenv (py "OPENAI_API_KEY");
     if truthy search_api_key then
       let search_api_key := default [] search_api_key in
       match question with
       | _ :: _ =>
           relevant_docs ← get_relevant_chunks question search_api_key num_chunks;
           match relevant_docs with
           | _ :: _ =>
               response ← analyze_logs_with_agent question relevant_docs search_api_key;
               show (st_subheader (0x1f4ca :: py " Analysis Results"));;
               show (st_markdown (py "### " ++ 0x1f4a1 :: py " Answer"));;
               show (st_write (answer response));;
               match relevant_logs response with
               | _ :: _ =>
                   show (st_expander (0x1f4c4 :: py " Relevant Log Entries (From Analysis)"));;
                   relevant_logs_loop 0 (relevant_logs response)
               | [] => mret tt
               end
           | [] => show (st_warning (py "No relevant logs found for your question."))
           end
       | [] => show (st_warning (py "Please enter a question"))
       end
     else
       show (st_error (py "Please set OPENAI_API_KEY environment variable"));;
       show (st_info (py "You can set it by running: `export OPENAI_API_KEY=your_api_key_here`")))
    (fun e =>
       show (st_warning (py "No ChromaDB found. Please upload and process JSON logs first in the Upload Interface tab."));;
       show (st_error (py "Error: " ++ exception_str e))).

End Program.

(* ===================================================================== *)
(** * Notions used to state the properties *)
(* ===================================================================== *)

(** Text made of scalar values, as decoding a UTF-8 file yields. *)
Definition wf_str (s : str) : Prop := Forall (fun c => is_scalar c = true) s.

(** The characters that cannot follow a number without changing how it
    is read. *)
Definition extends_number (c : N) : bool :=
  is_digit c || (c =? 46) || (c =? 101) || (c =? 69).

(** The text after a value does not run into it. *)
Definition delimited (rest : str) : Prop :=
  match rest with
  | [] => True
  | c :: _ => extends_number c = false
  end.

(** [text] is exactly one match of the number pattern, with a fraction
    or an exponent. *)
Definition is_float_lexeme (text : str) : Prop :=
  exists neg ds s1 frac s2 exp,
    match_integer text = Some (neg, ds, s1) /\
    match_frac s1 = (frac, s2) /\
    match_exp s2 = (exp, []) /\
    (frac <> [] \/ exp <> []) /\
    text = (if neg then [45] else []) ++ ds ++ frac ++ exp.

Section WellFormed.
Context `{PyFloat}.

(** A float that survives being printed and read: infinities by name, a
    finite one when its [repr] is a number literal that reads back as the
    same float.  Not-a-number is left out: it is not equal to itself. *)
Definition float_ok (f : spec_float) : Prop :=
  match f with
  | S754_nan => False
  | S754_infinity _ => True
  | _ => is_float_lexeme (float_repr f) /\ parse_float (float_repr f) = f
  end.

(** Well-formed JSON values: text is made of scalar values, the keys of
    a [dict] are distinct, floats satisfy [float_ok]. *)
Fixpoint wf (x : json) : Prop :=
  match x with
  | JNull | JBool _ | JInt _ => True
  | JFloat f => float_ok f
  | JStr s => wf_str s
  | JList l =>
      (fix all (l : list json) : Prop :=
         match l with
         | [] => True
         | v :: l' => wf v /\ all l'
         end) l
  | JDict d =>
      NoDup (d.*1) /\
      (fix all (d : list (str * json)) : Prop :=
         match d with
         | [] => True
         | kv :: d' => wf_str kv.1 /\ wf kv.2 /\ all d'
         end) d
  end.

(** What the Context Assembler is said to contribute for one retrieved
    chunk: the parsed text, or the text wrapped under [raw_content]. *)
Definition context_entry (doc : Document) : json :=
  match json_loads (page_content doc) with
  | Some value => value
  | None => JDict [(py "raw_content", JStr (page_content doc))]
  end.

End WellFormed.

(** Fuel that the scanner uses on the text of a value. *)
Fixpoint need (x : json) : nat :=
  match x with
  | JList l =>
      S ((fix items (l : list json) : nat :=
            match l with
            | [] => O
            | v :: l' => S (Nat.max (need v) (items l'))
            end) l)
  | JDict d =>
      S ((fix items (d : list (str * json)) : nat :=
            match d with
            | [] => O
            | kv :: d' => S (Nat.max (need kv.2) (items d'))
            end) d)
  | _ => 1%nat
  end.

(** The same for the items of a list and of a dict. *)
Definition need_items (l : list json) : nat :=
  foldr (fun v r => S (Nat.max (need v) r)) O l.

Definition need_pairs (d : list (str * json)) : nat :=
  foldr (fun kv r => S (Nat.max (need kv.2) r)) O d.

(** ** Concrete services for running the program *)

(** An embedding provider that rejects the empty key, a store score that
    is constant, and a model that answers every prompt with the same
    response, in which it reports having analysed seven logs. *)
Definition demo_response : LogAnalysisResponse :=
  {| answer := py "Two timeouts were logged.";
     relevant_logs := [];
     total_logs_analyzed := 7 |}.

Definition demo_services : Services :=
  {| embed := fun api_key _ =>
       match api_key with
       | [] => inl (ProviderError (py "Incorrect API key provided"))
       | _ :: _ => inr []
       end;
     similarity := fun _ _ => 0%Z;
     run_sync := fun _ _ => inr demo_response |}.

(** A model that is unreachable. *)
Definition offline_services : Services :=
  {| embed := fun _ _ => inl (ProviderError (py "Connection error."));
     similarity := fun _ _ => 0%Z;
     run_sync := fun _ _ => inl (ProviderError (py "Connection error.")) |}.

(** A fresh process: nothing in the environment, no store, empty screen. *)
Definition fresh : State :=
  {| environ := ∅; chroma_db := None; screen := []; requests := [] |}.

(** The scenario of §8: two log records. *)
Definition two_logs : list json :=
  [ JDict [(py "level", JStr (py "ERROR")); (py "msg", JStr (py "timeout"))];
    JDict [(py "level", JStr (py "INFO")); (py "msg", JStr (py "ok"))] ].

(** The state in which the model is called: the key is in the
    environment. *)
Definition keyed (api_key : str) (σ : State) : State :=
  {| environ := <[py "OPENAI_API_KEY" := api_key]> (environ σ);
     chroma_db := chroma_db σ;
     screen := screen σ;
     requests := requests σ |}.

(** The state after [prompt] was sent to the model. *)
Definition asked (prompt : str) (σ : State) : State :=
  {| environ := environ σ;
     chroma_db := chroma_db σ;
     screen := screen σ;
     requests := requests σ ++ [prompt] |}.

(** The state after [chunks] were appended to the collection. *)
Definition stored (chunks : list EmbeddedChunk) (σ : State) : State :=
  {| environ := environ σ;
     chroma_db := Some (default [] (chroma_db σ) ++ chunks);
     screen := screen σ;
     requests := requests σ |}.

(** The document the upload handler makes of element [i]. *)
Definition document_of `{PyFloat} (i : nat) (log_entry : json) : Document :=
  {| page_content := json_dumps log_entry;
     metadata := [(py "index", JInt (Z.of_nat i))] |}.

(** A process with the key in its environment and no store yet. *)
Definition configured : State :=
  {| environ := {[py "OPENAI_API_KEY" := py "sk-test"]};
     chroma_db := None; screen := []; requests := [] |}.

(** The text of an upload that holds the two records, and of one that
    holds a single record outside any array. *)
Definition two_logs_file : str := @json_dumps toy_float (JList two_logs).

Definition one_object_file : str :=
  @json_dumps toy_float (JDict [(py "level", JStr (py "ERROR"))]).

(** The chunks of the two records, and a process whose store holds them. *)
Definition two_chunks : list EmbeddedChunk :=
  map (fun doc => {| chunk_doc := doc; chunk_vector := [] |})
      (@documents_loop toy_float 0 two_logs []).

Definition ingested : State :=
  {| environ := {[py "OPENAI_API_KEY" := py "sk-test"]};
     chroma_db := Some two_chunks; screen := []; requests := [] |}.

(** ** Auxiliary notions of the codec proofs *)

(** What [repr] prints: digits that read back as the number, with no
    leading zero unless the number is zero. *)
Definition decimal_of (n : N) (ds : str) : Prop :=
  int_of_digits ds = n /\
  Forall (fun c => is_digit c = true) ds /\
  exists d rest, ds = d :: rest /\ (d = 48 -> n = 0 /\ rest = []).

(** The text that follows does not begin with a digit. *)
Definition no_digit_ahead (rest : str) : Prop :=
  match rest with
  | [] => True
  | c :: _ => is_digit c = false
  end.

(** A character that opens a number. *)
Definition opens_number (c : N) : Prop := c = 45 \/ is_digit c = true.

(** An encoded value begins with a character that is neither white space
    nor a closing bracket. *)
Definition opens_value (s : str) : Prop :=
  exists c t, s = c :: t /\ is_ws c = false /\ (c =? 93) = false.

(** What the round trip says of one value, at any level and with any
    text after it that does not run into a number. *)
Definition reads_back `{PyFloat} (x : json) : Prop :=
  forall (lvl n : nat) (rest : str),
    (need x <= n)%nat -> delimited rest ->
    scan_once n (iterencode None lvl x ++ rest) = Some (x, rest).

(** The text of the items of a dict, after the opening quote of the
    first key. *)
Definition items_text `{PyFloat} (lvl : nat) (d : list (str * json)) : str :=
  tail (join (py ", ")
          (map (fun kv => encode_basestring_ascii kv.1 ++ py ": " ++ iterencode None lvl kv.2) d)).

(** ** Notions for the two handlers *)

(** The state after the widgets [ws] are drawn, in order. *)
Definition drawn (ws : list widget) (σ : State) : State :=
  {| environ := environ σ;
     chroma_db := chroma_db σ;
     screen := screen σ ++ ws;
     requests := requests σ |}.

(** The three widgets the expander shows for the log at position [i]. *)
Definition log_widgets (i : nat) (log_entry : list (str * json)) : list widget :=
  [ st_markdown (py "**Relevant Log " ++ repr_nat (i + 1) ++ py ":**");
    st_json log_entry;
    st_divider ].

(** Everything the chat tab draws for a response. *)
Definition response_widgets (response : LogAnalysisResponse) : list widget :=
  [ st_subheader (0x1f4ca :: py " Analysis Results");
    st_markdown (py "### " ++ 0x1f4a1 :: py " Answer");
    st_write (answer response) ]
  ++ match relevant_logs response with
     | [] => []
     | _ :: _ =>
         st_expander (0x1f4c4 :: py " Relevant Log Entries (From Analysis)")
           :: concat (imap log_widgets (relevant_logs response))
     end.


(** The warning of the [except] clause that closes the chat tab. *)
Definition no_chroma_warning : widget :=
  st_warning (py "No ChromaDB found. Please upload and process JSON logs first in the Upload Interface tab.").

(** Services whose embeddings work and whose model call fails. *)
Definition mute_services : Services :=
  {| embed := fun _ _ => inr [];
     similarity := fun _ _ => 0%Z;
     run_sync := fun _ _ => inl (ProviderError (py "Connection error.")) |}.

(** The document retrieved from [ingested] for [k = 1]. *)
Definition first_hit : list Document :=
  [@document_of toy_float 0
     (JDict [(py "level", JStr (py "ERROR")); (py "msg", JStr (py "timeout"))])].

(** ** Proof tactics *)

(** Closes a goal about concrete text, one character at a time. *)
Ltac closed_text := repeat constructor.

(** Names the quotient and the remainder of [n] by [k], for [lia]. *)
Ltac divmod n k :=
  pose proof (N.div_mod n k ltac:(lia));
  pose proof (N.mod_lt n k ltac:(lia));
  generalize dependent (n / k); generalize dependent (n mod k); intros.

(* ===================================================================== *)
(** * Properties *)
(* ===================================================================== *)

(* ===================================================================== *)
(** * The definitions at work *)
(* ===================================================================== *)

Example dumps_list :
  @json_dumps toy_float (JList [JInt 1; JInt (-20); JNull; JBool true; JList []])
    = py "[1, -20, null, true, []]".
Proof. reflexivity. Qed.

Example dumps_indent2 :
  @json_dumps_indent2 toy_float (JList [JInt 1; JList [JNull]])
    = [91; 10] ++ py "  1," ++ [10] ++ py "  [" ++ [10] ++ py "    null"
      ++ [10] ++ py "  ]" ++ [10; 93].
Proof. reflexivity. Qed.

Example dumps_record :
  @json_dumps toy_float (JDict [(py "msg", JStr (py "ok"))])
    = [123; QUOTE] ++ py "msg" ++ [QUOTE] ++ py ": " ++ [QUOTE] ++ py "ok"
      ++ [QUOTE; 125].
Proof. reflexivity. Qed.

(** U+00E9 and U+1F4CA are escaped, the second as a surrogate pair. *)
Example escape_beyond_ascii :
  flat_map escape_char [233; 0x1f4ca] = py "\u00e9\ud83d\udcca".
Proof. reflexivity. Qed.

Example loads_list :
  @json_loads toy_float (py " [1, -0 , [ ] , null] ")
    = Some (JList [JInt 1; JInt 0; JList []; JNull]).
Proof. reflexivity. Qed.

Example loads_trailing_comma : @json_loads toy_float (py "[1,]") = None.
Proof. reflexivity. Qed.

Example loads_leading_zero : @json_loads toy_float (py "01") = None.
Proof. reflexivity. Qed.

Example loads_extra_data : @json_loads toy_float (py "1 2") = None.
Proof. reflexivity. Qed.

Example environ_rejects_nul :
  environ_rejects [97; 0; 98] = Some (ValueError (py "embedded null byte")).
Proof. reflexivity. Qed.

Example environ_rejects_surrogate :
  environ_rejects [97; 98; 0xdbff; 99]
    = Some (UnicodeEncodeError
              (py "'utf-8' codec can't encode character '\udbff' in position 2: surrogates not allowed")).
Proof. reflexivity. Qed.

Example environ_accepts_key : environ_rejects (py "sk-test") = None.
Proof. reflexivity. Qed.

(** The prompt built for one record and the question of §8. *)
Example context_text_lines :
  @context_text toy_float (py "show me errors") [JInt 1]
    = [10] ++ py "        Question: show me errors"
      ++ [10] ++ py "        "
      ++ [10] ++ py "        Log Entries to Analyze:"
      ++ [10] ++ py "        [" ++ [10] ++ py "  1" ++ [10] ++ py "]"
      ++ [10] ++ py "        "
      ++ [10] ++ py "        Please analyze these logs to answer the question. Provide insights, patterns, and specific findings."
      ++ [10] ++ py "        ".
Proof. reflexivity. Qed.

(* ===================================================================== *)
(** * The codec: printing and reading back *)
(* ===================================================================== *)

(** ** Decimal digits *)

Lemma is_digit_spec (c : N) : is_digit c = true <-> 48 <= c <= 57.
Proof. unfold is_digit. rewrite andb_true_iff, !N.leb_le. tauto. Qed.

Lemma int_of_digits_snoc (ds : str) (d : N) :
  int_of_digits (ds ++ [d]) = 10 * int_of_digits ds + (d - 48).
Proof. unfold int_of_digits. by rewrite fold_left_app. Qed.

Lemma digits_acc_app (fuel : nat) (n : N) (acc : str) :
  digits_acc fuel n acc = digits_acc fuel n [] ++ acc.
Proof.
  revert n acc. induction fuel as [|fuel IH]; intros n acc; simpl; [done|].
  destruct (n <? 10); [done|].
  rewrite IH, (IH _ [_]), <- app_assoc. done.
Qed.

Lemma digits_acc_decimal (fuel : nat) (n : N) :
  n < 2 ^ N.of_nat fuel -> (0 < fuel)%nat ->
  decimal_of n (digits_acc fuel n []).
Proof.
  revert n. induction fuel as [|fuel IH]; intros n Hn Hfuel; [lia|].
  simpl. destruct (n <? 10) eqn:Hlt.
  - apply N.ltb_lt in Hlt. rewrite N.mod_small by lia.
    repeat split.
    + unfold int_of_digits. simpl. lia.
    + repeat constructor. apply is_digit_spec. lia.
    + exists (48 + n), []. split; [done|]. intros ?. split; [lia|done].
  - apply N.ltb_ge in Hlt. rewrite digits_acc_app.
    assert (Hpow : 2 ^ N.of_nat (S fuel) = 2 * 2 ^ N.of_nat fuel).
    { rewrite Nat2N.inj_succ, N.pow_succ_r'. done. }
    assert (Hdiv : n / 10 < 2 ^ N.of_nat fuel).
    { apply N.Div0.div_lt_upper_bound. lia. }
    assert (Hpos : (0 < fuel)%nat).
    { destruct fuel; [|lia]. simpl in Hdiv.
      assert (1 <= n / 10) by (apply N.div_le_lower_bound; lia). lia. }
    destruct (IH _ Hdiv Hpos) as (Hval & Hall & d & rest & Hds & Hzero).
    repeat split.
    + rewrite int_of_digits_snoc, Hval.
      clear. divmod n 10. lia.
    + apply Forall_app. split; [done|]. repeat constructor.
      apply is_digit_spec. clear. divmod n 10. lia.
    + exists d, (rest ++ [48 + n mod 10]). rewrite Hds. split; [done|].
      intros Hd. destruct (Hzero Hd) as [Hz _].
      assert (1 <= n / 10) by (apply N.div_le_lower_bound; lia). lia.
Qed.

Lemma repr_N_decimal (n : N) : decimal_of n (repr_N n).
Proof.
  unfold repr_N. apply digits_acc_decimal; [|lia].
  rewrite Nat2N.inj_succ, N2Nat.id, N.pow_succ_r'.
  pose proof (N.size_gt n). lia.
Qed.

(** ** Numbers *)

Lemma delimited_no_digit (rest : str) : delimited rest -> no_digit_ahead rest.
Proof.
  destruct rest as [|c rest]; [done|]. unfold delimited, extends_number. simpl.
  rewrite !orb_false_iff. tauto.
Qed.

Lemma span_digits_app (s rest : str) :
  no_digit_ahead rest ->
  span_digits (s ++ rest) = ((span_digits s).1, (span_digits s).2 ++ rest).
Proof.
  intros Hrest. induction s as [|c s IH]; simpl.
  - destruct rest as [|c rest]; [done|]. simpl in *. by rewrite Hrest.
  - destruct (is_digit c); [|done].
    rewrite IH. by destruct (span_digits s).
Qed.

Lemma span_digits_all (ds : str) :
  Forall (fun c => is_digit c = true) ds -> span_digits ds = (ds, []).
Proof.
  induction 1 as [|c ds Hc _ IH]; simpl; [done|]. by rewrite Hc, IH.
Qed.

Lemma match_integer_app (s rest : str) (neg : bool) (ds s1 : str) :
  no_digit_ahead rest ->
  match_integer s = Some (neg, ds, s1) ->
  match_integer (s ++ rest) = Some (neg, ds, s1 ++ rest).
Proof.
  intros Hrest. unfold match_integer.
  assert (Hbody : forall (b : bool) (t : str),
    match t with
    | [] => None
    | c :: s2 =>
        if c =? 48 then Some (b, [48], s2)
        else if is_digit c
             then let '(ds, rest) := span_digits s2 in Some (b, c :: ds, rest)
             else None
    end = Some (neg, ds, s1) ->
    match t ++ rest with
    | [] => None
    | c :: s2 =>
        if c =? 48 then Some (b, [48], s2)
        else if is_digit c
             then let '(ds, rest) := span_digits s2 in Some (b, c :: ds, rest)
             else None
    end = Some (neg, ds, s1 ++ rest)).
  { intros b [|c t]; [done|]. simpl.
    destruct (c =? 48); [by intros [= <- <- <-]|].
    destruct (is_digit c); [|done].
    rewrite span_digits_app by done.
    destruct (span_digits t) as [ds' r]. by intros [= <- <- <-]. }
  destruct s as [|c s]; [done|]. simpl.
  destruct (c =? 45); [apply (Hbody true s)|apply (Hbody false (c :: s))].
Qed.

Lemma match_frac_app (s rest frac s2 : str) :
  delimited rest ->
  match_frac s = (frac, s2) ->
  match_frac (s ++ rest) = (frac, s2 ++ rest).
Proof.
  intros Hrest. unfold match_frac. destruct s as [|c s]; simpl.
  - intros [= <- <-]. destruct rest as [|c rest]; [done|].
    unfold delimited, extends_number in Hrest.
    rewrite !orb_false_iff in Hrest. destruct Hrest as [[[_ ->] _] _]. done.
  - destruct (c =? 46); [|by intros [= <- <-]].
    rewrite span_digits_app by (by apply delimited_no_digit).
    destruct (span_digits s) as [[|d ds] r]; simpl; by intros [= <- <-].
Qed.

Lemma match_exp_app (s rest exp : str) :
  delimited rest ->
  match_exp s = (exp, []) ->
  match_exp (s ++ rest) = (exp, rest).
Proof.
  intros Hrest. unfold match_exp. destruct s as [|c s]; simpl.
  - intros [= <-]. destruct rest as [|c rest]; [done|].
    unfold delimited, extends_number in Hrest.
    rewrite !orb_false_iff in Hrest. destruct Hrest as [[[_ _] ->] ->]. done.
  - destruct ((c =? 101) || (c =? 69)); [|done].
    assert (Hspan : forall (sign t whole : str), whole <> [] ->
      match span_digits t with
      | ([], _) => ([], whole)
      | (ds, rest) => (c :: sign ++ ds, rest)
      end = (exp, []) ->
      match span_digits (t ++ rest) with
      | ([], _) => ([], whole ++ rest)
      | (ds, rest) => (c :: sign ++ ds, rest)
      end = (exp, rest)).
    { intros sign t whole Hwhole.
      rewrite span_digits_app by (by apply delimited_no_digit).
      destruct (span_digits t) as [[|d ds] r]; simpl.
      - intros [= _ Hw]. by destruct Hwhole.
      - by intros [= <- ->]. }
    destruct s as [|d s]; simpl; [done|].
    destruct ((d =? 45) || (d =? 43)).
    + apply (Hspan [d] s (c :: d :: s)). done.
    + apply (Hspan [] (d :: s) (c :: d :: s)). done.
Qed.

Section NumberRoundTrip.
Context `{PyFloat}.

Lemma scan_number_float (text rest : str) :
  is_float_lexeme text -> delimited rest ->
  scan_number (text ++ rest) = Some (JFloat (parse_float text), rest).
Proof.
  intros (neg & ds & s1 & frac & s2 & exp & Hint & Hfrac & Hexp & Hsome & ->) Hrest.
  unfold scan_number.
  rewrite (match_integer_app _ _ _ _ _ (delimited_no_digit _ Hrest) Hint).
  rewrite (match_frac_app _ _ _ _ Hrest Hfrac). simpl.
  rewrite (match_exp_app _ _ _ Hrest Hexp).
  rewrite <- !app_assoc.
  destruct frac, exp; try done. by destruct Hsome.
Qed.

Lemma scan_number_int (z : Z) (rest : str) :
  delimited rest ->
  scan_number (repr_int z ++ rest) = Some (JInt z, rest).
Proof.
  intros Hrest.
  assert (Hfrac : match_frac rest = ([], rest)).
  { apply (match_frac_app [] rest [] []); done. }
  assert (Hexp : match_exp rest = ([], rest)).
  { apply (match_exp_app [] rest []); done. }
  assert (Hpos : forall (p : positive) (b : bool),
    match_integer ((if b then [45] else []) ++ repr_N (Npos p) ++ rest)
      = Some (b, repr_N (Npos p), rest) /\
    int_of_digits (repr_N (Npos p)) = Npos p).
  { intros p b. destruct (repr_N_decimal (Npos p))
      as (Hval & Hall & d & ds & Hds & Hzero).
    split; [|done]. rewrite Hds in *.
    apply Forall_cons in Hall as [Hd Hall].
    assert (d <> 48) by (intros Hd0; by destruct (Hzero Hd0)).
    assert (d <> 45) by (apply is_digit_spec in Hd; lia).
    unfold match_integer.
    assert (Hbody :
      (if d =? 48 then Some (b, [48], ds ++ rest)
       else if is_digit d
            then let '(ds0, rest0) := span_digits (ds ++ rest) in
                 Some (b, d :: ds0, rest0)
            else None) = Some (b, d :: ds, rest)).
    { rewrite (proj2 (N.eqb_neq _ _)) by done. rewrite Hd.
      rewrite span_digits_app by (by apply delimited_no_digit).
      by rewrite span_digits_all. }
    destruct b; simpl; [exact Hbody|].
    rewrite (proj2 (N.eqb_neq _ _)) by done. exact Hbody. }
  unfold scan_number. destruct z as [|p|p].
  - simpl. rewrite Hfrac, Hexp. done.
  - destruct (Hpos p false) as [Hint Hval]. simpl in Hint. simpl repr_int.
    rewrite Hint, Hfrac, Hexp. unfold parse_int. by rewrite Hval.
  - destruct (Hpos p true) as [Hint Hval]. simpl in Hint. simpl repr_int.
    change ((45 :: repr_N (N.pos p)) ++ rest) with (45 :: repr_N (N.pos p) ++ rest).
    rewrite Hint, Hfrac, Hexp. unfold parse_int. by rewrite Hval.
Qed.

End NumberRoundTrip.

(** ** Strings *)

Lemma hexval_hex_digit (d : N) : d < 16 -> hexval (hex_digit d) = Some d.
Proof.
  intros Hd. unfold hex_digit, hexval.
  destruct (d <? 10) eqn:Hlt.
  - apply N.ltb_lt in Hlt.
    replace ((48 <=? 48 + d) && (48 + d <=? 57)) with true.
    + f_equal. lia.
    + symmetry. apply andb_true_iff. rewrite !N.leb_le. lia.
  - apply N.ltb_ge in Hlt.
    replace ((48 <=? 87 + d) && (87 + d <=? 57)) with false.
    + replace ((97 <=? 87 + d) && (87 + d <=? 102)) with true.
      * f_equal. lia.
      * symmetry. apply andb_true_iff. rewrite !N.leb_le. lia.
    + symmetry. apply andb_false_iff. right. apply N.leb_gt. lia.
Qed.

Lemma decode_hex4 (n : N) :
  n < 0x10000 ->
  decode_uXXXX (hex_digit (n / 4096 mod 16)) (hex_digit (n / 256 mod 16))
               (hex_digit (n / 16 mod 16)) (hex_digit (n mod 16)) = Some n.
Proof.
  intros Hn. unfold decode_uXXXX.
  rewrite !hexval_hex_digit by (apply N.mod_lt; lia).
  f_equal.
  assert (H1 : n / 16 = 16 * (n / 256) + n / 16 mod 16).
  { replace (n / 256) with (n / 16 / 16) by (rewrite N.Div0.div_div; done).
    apply N.div_mod. lia. }
  assert (H2 : n / 256 = 16 * (n / 4096) + n / 256 mod 16).
  { replace (n / 4096) with (n / 256 / 16) by (rewrite N.Div0.div_div; done).
    apply N.div_mod. lia. }
  assert (H3 : n / 4096 mod 16 = n / 4096).
  { apply N.mod_small. apply N.Div0.div_lt_upper_bound. lia. }
  pose proof (N.div_mod n 16 ltac:(lia)) as H0.
  rewrite H3.
  generalize dependent (n / 4096). generalize dependent (n / 256 mod 16).
  generalize dependent (n / 256). generalize dependent (n / 16 mod 16).
  generalize dependent (n / 16). generalize dependent (n mod 16).
  intros. lia.
Qed.

(** The two halves of a surrogate pair, and the pair put together. *)
Lemma lor_disjoint (hi lo k : N) :
  lo < 2 ^ k -> N.lor (N.shiftl hi k) lo = hi * 2 ^ k + lo.
Proof.
  intros Hlo.
  assert (Hand : N.land (N.shiftl hi k) lo = 0).
  { apply N.bits_inj. intros i. rewrite N.land_spec, N.bits_0.
    destruct (N.lt_ge_cases i k) as [Hi|Hi].
    - by rewrite N.shiftl_spec_low.
    - rewrite <- (N.mod_small lo (2 ^ k)) by done.
      rewrite N.mod_pow2_bits_high by done. apply andb_false_r. }
  rewrite <- N.lxor_lor, <- N.add_nocarry_lxor by done.
  by rewrite N.shiftl_mul_pow2.
Qed.

Lemma surrogate_pair (c : N) :
  0x10000 <= c < 0x110000 ->
  let n := c - 0x10000 in
  let s1 := N.lor 0xd800 (N.land (N.shiftr n 10) 0x3ff) in
  let s2 := N.lor 0xdc00 (N.land n 0x3ff) in
  (0xd800 <= s1 <= 0xdbff) /\ (0xdc00 <= s2 <= 0xdfff) /\
  0x10000 + N.lor (N.shiftl (s1 - 0xd800) 10) (s2 - 0xdc00) = c.
Proof.
  intros Hc n s1 s2.
  assert (Hn : n < 1024 * 1024) by (unfold n; lia).
  assert (Hs1 : s1 = 0xd800 + n / 1024).
  { unfold s1. change 0x3ff with (N.ones 10). rewrite N.land_ones.
    rewrite N.shiftr_div_pow2. change (2 ^ 10) with 1024.
    rewrite N.mod_small by (apply N.Div0.div_lt_upper_bound; lia).
    change 0xd800 with (N.shiftl 54 10) at 1.
    rewrite lor_disjoint by (apply N.Div0.div_lt_upper_bound; lia). done. }
  assert (Hs2 : s2 = 0xdc00 + n mod 1024).
  { unfold s2. change 0x3ff with (N.ones 10). rewrite N.land_ones.
    change (2 ^ 10) with 1024.
    change 0xdc00 with (N.shiftl 55 10) at 1.
    rewrite lor_disjoint by (apply N.mod_lt; lia). done. }
  assert (Hhi : n / 1024 < 1024) by (apply N.Div0.div_lt_upper_bound; lia).
  pose proof (N.mod_lt n 1024 ltac:(lia)) as Hlo.
  pose proof (N.div_mod n 1024 ltac:(lia)) as Hdm.
  clearbody s1 s2. subst s1 s2.
  assert (Hc' : c = 0x10000 + n) by (unfold n; lia).
  clearbody n.
  generalize dependent (n / 1024). generalize dependent (n mod 1024).
  intros lo Hlo hi Hhi Hdm.
  replace (0xd800 + hi - 0xd800) with hi by lia.
  replace (0xdc00 + lo - 0xdc00) with lo by lia.
  rewrite lor_disjoint by done. change (2 ^ 10) with 1024. lia.
Qed.

(** One step of [scanstring] on the shapes the encoder produces. *)
Lemma scanstring_plain (c : N) (t : str) :
  c <> QUOTE -> c <> BACKSLASH -> 32 <= c ->
  scanstring (c :: t) = cons_char c (scanstring t).
Proof.
  intros Hq Hb Hc. simpl.
  rewrite (proj2 (N.eqb_neq c QUOTE)) by done.
  rewrite (proj2 (N.ltb_ge c 32)) by done.
  rewrite (proj2 (N.eqb_neq c BACKSLASH)) by done. done.
Qed.

Lemma scanstring_u (a b c d : N) (t : str) :
  scanstring (BACKSLASH :: 117 :: a :: b :: c :: d :: t) =
    match decode_uXXXX a b c d with
    | None => None
    | Some uni =>
        if (0xd800 <=? uni) && (uni <=? 0xdbff) then
          match t with
          | bs :: u :: e :: f :: g :: h :: s5 =>
              if (bs =? BACKSLASH) && (u =? 117) then
                match decode_uXXXX e f g h with
                | None => None
                | Some uni2 =>
                    if (0xdc00 <=? uni2) && (uni2 <=? 0xdfff) then
                      cons_char
                        (0x10000 + N.lor (N.shiftl (uni - 0xd800) 10)
                                         (uni2 - 0xdc00))
                        (scanstring s5)
                    else cons_char uni (scanstring t)
                end
              else cons_char uni (scanstring t)
          | bs :: u :: _ =>
              if (bs =? BACKSLASH) && (u =? 117) then None
              else cons_char uni (scanstring t)
          | _ => cons_char uni (scanstring t)
          end
        else cons_char uni (scanstring t)
    end.
Proof. reflexivity. Qed.

Lemma scanstring_escape (c : N) (t : str) :
  is_scalar c = true ->
  scanstring (escape_char c ++ t) = cons_char c (scanstring t).
Proof.
  intros Hc. unfold escape_char.
  destruct (c =? QUOTE) eqn:E1; [apply N.eqb_eq in E1; by subst|].
  destruct (c =? BACKSLASH) eqn:E2; [apply N.eqb_eq in E2; by subst|].
  destruct (c =? 10) eqn:E3; [apply N.eqb_eq in E3; by subst|].
  destruct (c =? 13) eqn:E4; [apply N.eqb_eq in E4; by subst|].
  destruct (c =? 9) eqn:E5; [apply N.eqb_eq in E5; by subst|].
  destruct (c =? 8) eqn:E6; [apply N.eqb_eq in E6; by subst|].
  destruct (c =? 12) eqn:E7; [apply N.eqb_eq in E7; by subst|].
  apply N.eqb_neq in E1, E2.
  destruct ((32 <=? c) && (c <=? 126)) eqn:E8.
  { apply andb_true_iff in E8 as [E8 _]. apply N.leb_le in E8.
    by apply scanstring_plain. }
  unfold is_scalar in Hc.
  destruct (c <? 0x10000) eqn:E9.
  - apply N.ltb_lt in E9. unfold hex4.
    cbn [app]. rewrite scanstring_u, decode_hex4 by done.
    replace ((0xd800 <=? c) && (c <=? 0xdbff)) with false; [done|].
    symmetry. apply andb_false_iff.
    apply orb_true_iff in Hc as [Hc|Hc].
    + left. apply N.ltb_lt in Hc. apply N.leb_gt. done.
    + apply andb_true_iff in Hc as [Hc _]. apply N.ltb_lt in Hc.
      right. apply N.leb_gt. lia.
  - apply N.ltb_ge in E9.
    assert (Hrange : 0x10000 <= c < 0x110000).
    { apply orb_true_iff in Hc as [Hc|Hc].
      - apply N.ltb_lt in Hc. lia.
      - apply andb_true_iff in Hc as [_ Hc]. apply N.ltb_lt in Hc. lia. }
    destruct (surrogate_pair c Hrange) as (Hs1 & Hs2 & Hjoin).
    cbv zeta in *.
    set (s1 := N.lor 0xd800 (N.land (N.shiftr (c - 0x10000) 10) 0x3ff)) in *.
    set (s2 := N.lor 0xdc00 (N.land (c - 0x10000) 0x3ff)) in *.
    unfold hex4. cbn [app].
    rewrite scanstring_u, decode_hex4 by lia.
    replace ((0xd800 <=? s1) && (s1 <=? 0xdbff)) with true
      by (symmetry; apply andb_true_iff; rewrite !N.leb_le; lia).
    cbn [N.eqb BACKSLASH Pos.eqb andb].
    rewrite decode_hex4 by lia.
    replace ((0xdc00 <=? s2) && (s2 <=? 0xdfff)) with true
      by (symmetry; apply andb_true_iff; rewrite !N.leb_le; lia).
    by rewrite Hjoin.
Qed.

Lemma scanstring_encoded (s rest : str) :
  wf_str s ->
  scanstring (flat_map escape_char s ++ QUOTE :: rest) = Some (s, rest).
Proof.
  induction 1 as [|c s Hc _ IH]; [done|].
  cbn [flat_map]. rewrite <- app_assoc, scanstring_escape, IH by done. done.
Qed.

(** ** Values *)

(** Induction on JSON trees, with the hypothesis for every element of a
    list and every value of a dict. *)
Lemma json_tree_ind (P : json -> Prop) :
  P JNull ->
  (forall b, P (JBool b)) ->
  (forall n, P (JInt n)) ->
  (forall f, P (JFloat f)) ->
  (forall s, P (JStr s)) ->
  (forall l, Forall P l -> P (JList l)) ->
  (forall d, Forall (fun kv => P kv.2) d -> P (JDict d)) ->
  forall x, P x.
Proof.
  intros Hnull Hbool Hint Hfloat Hstr Hlist Hdict.
  fix IH 1. intros x. destruct x as [|b|n|f|s|l|d].
  - exact Hnull.
  - apply Hbool.
  - apply Hint.
  - apply Hfloat.
  - apply Hstr.
  - apply Hlist.
    exact ((fix all (l : list json) : Forall P l :=
              match l as l0 return Forall P l0 with
              | [] => @List.Forall_nil _ P
              | v :: l' => @List.Forall_cons _ P v l' (IH v) (all l')
              end) l).
  - apply Hdict.
    exact ((fix all (d : list (str * json)) : Forall (fun kv => P kv.2) d :=
              match d as d0 return Forall (fun kv => P kv.2) d0 with
              | [] => @List.Forall_nil _ _
              | kv :: d' => @List.Forall_cons _ (fun kv => P kv.2) kv d' (IH kv.2) (all d')
              end) d).
Qed.

Section ValueRoundTrip.
Context `{PyFloat}.

Lemma wf_list (l : list json) : wf (JList l) <-> Forall wf l.
Proof.
  simpl. induction l as [|v l IH]; [by split; [constructor|]|].
  rewrite Forall_cons, IH. done.
Qed.

Lemma wf_dict (d : list (str * json)) :
  wf (JDict d) <->
  NoDup (d.*1) /\ Forall (fun kv => wf_str kv.1 /\ wf kv.2) d.
Proof.
  simpl. apply and_iff_compat_l.
  induction d as [|kv d IH]; [by split; [constructor|]|].
  rewrite Forall_cons, IH. tauto.
Qed.

Lemma need_list (l : list json) : need (JList l) = S (need_items l).
Proof.
  reflexivity.
Qed.

Lemma need_dict (d : list (str * json)) : need (JDict d) = S (need_pairs d).
Proof.
  reflexivity.
Qed.

Lemma need_pos (x : json) : (1 <= need x)%nat.
Proof. destruct x; simpl; lia. Qed.

(** [dict(pairs)] of pairs with distinct keys is the pairs. *)
Lemma dict_set_fresh (d : list (str * json)) (k : str) (v : json) :
  k ∉ d.*1 -> dict_set d k v = d ++ [(k, v)].
Proof.
  induction d as [|[k' v'] d IH]; simpl; [done|].
  rewrite not_elem_of_cons. intros [Hne Hnotin].
  destruct (decide (k' = k)); [congruence|]. by rewrite IH.
Qed.

Lemma dict_of_pairs_nodup (d : list (str * json)) :
  NoDup (d.*1) -> dict_of_pairs d = d.
Proof.
  unfold dict_of_pairs.
  assert (Hgen : forall acc : list (str * json),
    NoDup ((acc ++ d).*1) ->
    fold_left (fun d kv => dict_set d kv.1 kv.2) d acc = acc ++ d).
  { induction d as [|[k v] d IH]; intros acc Hnd; simpl.
    - by rewrite app_nil_r.
    - rewrite dict_set_fresh.
      + rewrite IH, <- app_assoc; [done|]. by rewrite <- app_assoc.
      + rewrite fmap_app in Hnd. apply NoDup_app in Hnd as (_ & Hdisj & _).
        intros Hin. apply (Hdisj k Hin). simpl. apply list_elem_of_here. }
  intros Hnd. by apply (Hgen []).
Qed.

(** ** The first character of an encoded value *)

Lemma match_integer_head (s : str) (r : bool * str * str) :
  match_integer s = Some r ->
  exists c t, s = c :: t /\ (c = 45 \/ is_digit c = true).
Proof.
  unfold match_integer. destruct s as [|c s]; [done|].
  destruct (c =? 45) eqn:Hminus.
  - apply N.eqb_eq in Hminus. eauto.
  - destruct (c =? 48) eqn:Hzero.
    + apply N.eqb_eq in Hzero. subst. eauto.
    + destruct (is_digit c) eqn:Hd; [eauto|done].
Qed.

Lemma opens_number_tests (c : N) :
  opens_number c ->
  is_ws c = false /\ (c =? QUOTE) = false /\ (c =? 123) = false /\
  (c =? 91) = false /\ (c =? 93) = false /\ (110 =? c) = false /\
  (116 =? c) = false /\ (102 =? c) = false.
Proof.
  intros [->|Hd]; [done|]. apply is_digit_spec in Hd. unfold is_ws, QUOTE.
  rewrite !orb_false_iff.
  repeat split; apply N.eqb_neq; lia.
Qed.

Lemma repr_int_head (z : Z) :
  exists c t, repr_int z = c :: t /\ opens_number c.
Proof.
  assert (Hpos : forall n, exists c t, repr_N n = c :: t /\ opens_number c).
  { intros n. destruct (repr_N_decimal n) as (_ & Hall & d & rest & Hds & _).
    rewrite Hds in *. apply Forall_cons in Hall as [Hd _].
    exists d, rest. split; [done|]. by right. }
  destruct z as [|p|p]; simpl.
  - exists 48, []. split; [done|]. by right.
  - apply Hpos.
  - exists 45, (repr_N (N.pos p)). split; [done|]. by left.
Qed.

(** The text of a value with [indent=None], at any nesting level. *)
Local Notation "'enc'" := (iterencode None).

Lemma float_ok_head (f : spec_float) :
  float_ok f -> exists c t, floatstr f = c :: t /\ (opens_number c \/ c = 73).
Proof.
  assert (Hlex : forall text, is_float_lexeme text ->
    exists c t, text = c :: t /\ (opens_number c \/ c = 73)).
  { intros text (neg & ds & s1 & frac & s2 & exp & Hint & _).
    apply match_integer_head in Hint as (c & t & -> & Hc). eauto. }
  destruct f as [s|[]| |s m e]; simpl; try done.
  - intros [Hl _]. by apply Hlex.
  - intros _. exists 45, (py "Infinity"). split; [done|]. left. by left.
  - intros _. exists 73, (py "nfinity"). split; [done|]. by right.
  - intros [Hl _]. by apply Hlex.
Qed.

Lemma enc_opens_value (x : json) (lvl : nat) : wf x -> opens_value (enc lvl x).
Proof.
  destruct x as [|[]|z|f|s|[|v l]|[|kv d]]; intros Hwf;
    try (eexists _, _; split; [reflexivity|done]).
  - destruct (repr_int_head z) as (c & t & Hz & Hc).
    exists c, t. split; [done|]. apply opens_number_tests in Hc. tauto.
  - destruct (float_ok_head f Hwf) as (c & t & Hf & [Hc| ->]).
    + exists c, t. split; [done|]. apply opens_number_tests in Hc. tauto.
    + by exists 73, t.
Qed.

Lemma skip_ws_opens_value (s rest : str) :
  opens_value s -> skip_ws (s ++ rest) = s ++ rest.
Proof. intros (c & t & -> & Hws & _). simpl. by rewrite Hws. Qed.

(** ** Equations of the scanner *)

Lemma scan_once_number (n : nat) (s : str) (c : N) (t : str) (r : json * str) :
  s = c :: t -> opens_number c ->
  scan_number s = Some r -> scan_once (S n) s = Some r.
Proof.
  intros -> Hc Hnum. apply opens_number_tests in Hc
    as (_ & Hq & Ho & Ha & _ & Hn & Ht & Hf).
  cbn [scan_once]. rewrite Hq, Ho, Ha.
  cbn [strip_prefix py map list_ascii_of_string].
  change (N_of_ascii "n") with 110. change (N_of_ascii "t") with 116.
  change (N_of_ascii "f") with 102.
  by rewrite Hn, Ht, Hf, Hnum.
Qed.

Lemma scan_once_list (n : nat) (s rest : str) :
  opens_value s ->
  scan_once (S n) (91 :: s ++ rest) =
    match array_items n (s ++ rest) with
    | Some (values, rest') => Some (JList values, rest')
    | None => None
    end.
Proof.
  intros (c & t & -> & Hws & Hclose). cbn [scan_once N.eqb QUOTE Pos.eqb].
  cbn [skip_ws app]. by rewrite Hws, Hclose.
Qed.

Lemma array_items_step (m : nat) (s : str) :
  array_items (S m) s =
    match scan_once m s with
    | None => None
    | Some (value, s1) =>
      match skip_ws s1 with
      | c :: s2 =>
          if c =? 93 then Some ([value], s2)
          else if c =? 44 then
            match array_items m (skip_ws s2) with
            | Some (values, rest) => Some (value :: values, rest)
            | None => None
            end
          else None
      | [] => None
      end
    end.
Proof. reflexivity. Qed.

Lemma object_items_step (m : nat) (s : str) :
  object_items (S m) s =
    match scanstring s with
    | None => None
    | Some (key, s1) =>
      match skip_ws s1 with
      | c :: s2 =>
          if c =? 58 then
            match scan_once m (skip_ws s2) with
            | None => None
            | Some (value, s3) =>
              match skip_ws s3 with
              | d :: s4 =>
                  if d =? 125 then Some ([(key, value)], s4)
                  else if d =? 44 then
                    match skip_ws s4 with
                    | q :: s5 =>
                        if q =? QUOTE then
                          match object_items m s5 with
                          | Some (pairs, rest) => Some ((key, value) :: pairs, rest)
                          | None => None
                          end
                        else None
                    | [] => None
                    end
                  else None
              | [] => None
              end
            end
          else None
      | [] => None
      end
    end.
Proof. reflexivity. Qed.


(** ** Reading back an encoded value *)

Lemma join_cons (sep p : str) (ps : list str) :
  ps <> [] -> join sep (p :: ps) = p ++ sep ++ join sep ps.
Proof. by destruct ps. Qed.

Lemma join_opens_value (sep : str) (p : str) (ps : list str) :
  opens_value p -> opens_value (join sep (p :: ps)).
Proof.
  intros (c & t & -> & Hc). destruct ps as [|q ps].
  - by exists c, t.
  - rewrite join_cons by done. by exists c, (t ++ sep ++ join sep (q :: ps)).
Qed.

Lemma array_items_encoded (l : list json) (lvl m : nat) (rest : str) :
  l <> [] -> Forall reads_back l -> Forall wf l ->
  (need_items l <= m)%nat ->
  array_items m (join (py ", ") (map (enc lvl) l) ++ 93 :: rest)
    = Some (l, rest).
Proof.
  intros Hne Hrb Hwf. revert m.
  induction l as [|v l IH]; [done|]. clear Hne. intros m Hm.
  apply Forall_cons in Hrb as [Hv Hrb]. apply Forall_cons in Hwf as [Hwv Hwf].
  simpl in Hm. destruct m as [|m]; [lia|].
  rewrite array_items_step. destruct l as [|v' l].
  - cbn [map join]. rewrite (Hv lvl m (93 :: rest)) by (done || lia). done.
  - rewrite map_cons, join_cons, <- !app_assoc by done.
    rewrite (Hv lvl m) by (done || lia).
    cbn [py map list_ascii_of_string app skip_ws].
    change (N_of_ascii ",") with 44. change (N_of_ascii " ") with 32.
    cbn [is_ws N.eqb Pos.eqb orb skip_ws].
    rewrite skip_ws_opens_value.
    + rewrite IH; [done|done|done|done|]. simpl in *. lia.
    + apply join_opens_value, enc_opens_value.
      by apply Forall_cons in Hwf as [? _].
Qed.

Lemma items_text_quote (lvl : nat) (d : list (str * json)) :
  d <> [] ->
  join (py ", ")
    (map (fun kv => encode_basestring_ascii kv.1 ++ py ": " ++ enc lvl kv.2) d)
  = QUOTE :: items_text lvl d.
Proof. unfold items_text. destruct d as [|kv [|kv' d]]; done. Qed.

Lemma items_text_cons (lvl : nat) (kv : str * json) (d : list (str * json)) :
  items_text lvl (kv :: d) =
    flat_map escape_char kv.1 ++ QUOTE :: 58 :: 32 :: enc lvl kv.2 ++
    match d with
    | [] => []
    | _ :: _ => 44 :: 32 :: QUOTE :: items_text lvl d
    end.
Proof.
  destruct d as [|kv' d].
  - unfold items_text, encode_basestring_ascii. cbn [map join tail app].
    rewrite <- !app_assoc, app_nil_r. done.
  - rewrite <- (items_text_quote lvl (kv' :: d)) by done.
    unfold items_text. rewrite map_cons, join_cons by done.
    unfold encode_basestring_ascii at 1. cbn [tail app].
    rewrite <- !app_assoc. done.
Qed.

Lemma object_items_encoded (d : list (str * json)) (lvl m : nat) (rest : str) :
  d <> [] ->
  Forall (fun kv => reads_back kv.2) d ->
  Forall (fun kv => wf_str kv.1 /\ wf kv.2) d ->
  (need_pairs d <= m)%nat ->
  object_items m (items_text lvl d ++ 125 :: rest) = Some (d, rest).
Proof.
  intros Hne Hrb Hwf. revert m.
  induction d as [|kv d IH]; [done|]. clear Hne. intros m Hm.
  apply Forall_cons in Hrb as [Hv Hrb].
  apply Forall_cons in Hwf as [[Hk Hwv] Hwf].
  simpl in Hm. destruct m as [|m]; [lia|].
  rewrite object_items_step, items_text_cons, <- !app_assoc. cbn [app].
  rewrite scanstring_encoded by done.
  cbn [app skip_ws is_ws N.eqb Pos.eqb orb].
  rewrite <- app_assoc, skip_ws_opens_value by (by apply enc_opens_value).
  destruct d as [|kv' d]; cbn [app].
  - rewrite (Hv lvl m (125 :: rest)) by (done || lia). destruct kv; done.
  - rewrite (Hv lvl m) by (done || lia).
    cbn [skip_ws is_ws N.eqb Pos.eqb orb QUOTE].
    rewrite IH; [by destruct kv|done|done|done|]. simpl in *. lia.
Qed.

Lemma scan_once_string (n : nat) (s : str) :
  scan_once (S n) (QUOTE :: s) =
    match scanstring s with
    | Some (k, rest) => Some (JStr k, rest)
    | None => None
    end.
Proof. reflexivity. Qed.

Lemma scan_once_float_lexeme (n : nat) (text rest : str) (f : spec_float) :
  is_float_lexeme text -> delimited rest -> parse_float text = f ->
  scan_once (S n) (text ++ rest) = Some (JFloat f, rest).
Proof.
  intros Hlex Hrest <-.
  pose proof Hlex as (neg & ds & s1 & frac & s2 & exp & Hint & _).
  apply match_integer_head in Hint as (c & t & Ht & Hc).
  eapply scan_once_number; [by rewrite Ht| done |].
  by apply scan_number_float.
Qed.

Lemma scan_once_encoded (x : json) : wf x -> reads_back x.
Proof.
  induction x as [|b|z|f|s|l IH|d IH] using json_tree_ind;
    intros Hwf lvl n rest Hn Hrest; (destruct n as [|n]; [simpl in Hn; lia|]).
  - done.
  - by destruct b.
  - change (enc lvl (JInt z)) with (repr_int z).
    destruct (repr_int_head z) as (c & t & Hz & Hc).
    eapply scan_once_number; [by rewrite Hz| done |].
    by apply scan_number_int.
  - destruct f as [s|[]| |s m e]; try done.
    + apply scan_once_float_lexeme; [apply Hwf|done|apply Hwf].
    + apply scan_once_float_lexeme; [apply Hwf|done|apply Hwf].
  - change (enc lvl (JStr s)) with (QUOTE :: flat_map escape_char s ++ [QUOTE]).
    cbn [app]. rewrite scan_once_string, <- app_assoc. cbn [app].
    by rewrite scanstring_encoded.
  - apply wf_list in Hwf. destruct l as [|v l]; [done|].
    rewrite need_list in Hn.
    change (enc lvl (JList (v :: l)))
      with (91 :: join (py ", ") (map (enc (S lvl)) (v :: l)) ++ [93]).
    cbn [app]. rewrite <- app_assoc. cbn [app].
    rewrite scan_once_list.
    + rewrite array_items_encoded; [done|done| |done|lia].
      apply Forall_forall. intros y Hy.
      rewrite Forall_forall in IH, Hwf. by apply IH, Hwf.
    + rewrite map_cons. apply join_opens_value, enc_opens_value.
      by apply Forall_cons in Hwf as [? _].
  - apply wf_dict in Hwf as [Hnd Hwf]. destruct d as [|kv d]; [done|].
    rewrite need_dict in Hn.
    change (enc lvl (JDict (kv :: d)))
      with (123 :: join (py ", ")
              (map (fun kv => encode_basestring_ascii kv.1 ++ py ": "
                              ++ enc (S lvl) kv.2) (kv :: d)) ++ [125]).
    rewrite items_text_quote by done.
    cbn [app scan_once N.eqb QUOTE Pos.eqb skip_ws is_ws orb].
    rewrite <- app_assoc. cbn [app].
    rewrite object_items_encoded; [by rewrite dict_of_pairs_nodup|done| |done|lia].
    apply Forall_forall. intros y Hy.
    rewrite Forall_forall in IH, Hwf. apply IH; [done|]. by apply Hwf.
Qed.


(** ** Fuel: the length of the text is enough *)

Lemma need_items_bound (l : list json) (lvl : nat) :
  Forall (fun v => forall lvl, (need v <= S (length (enc lvl v)))%nat) l ->
  (need_items l <= 2 + length (join (py ", ") (map (enc lvl) l)))%nat.
Proof.
  induction 1 as [|v l Hv _ IH]; simpl need_items; [lia|].
  specialize (Hv lvl). destruct l as [|v' l].
  - simpl in *. lia.
  - rewrite map_cons, join_cons, !length_app by done.
    change (length (py ", ")) with 2%nat. lia.
Qed.

Lemma need_pairs_bound (d : list (str * json)) (lvl : nat) :
  Forall (fun kv => forall lvl, (need kv.2 <= S (length (enc lvl kv.2)))%nat) d ->
  (need_pairs d <= 2 + length (join (py ", ")
     (map (fun kv => encode_basestring_ascii kv.1 ++ py ": " ++ enc lvl kv.2) d)))%nat.
Proof.
  induction 1 as [|kv d Hv _ IH]; simpl need_pairs; [lia|].
  specialize (Hv lvl). destruct d as [|kv' d].
  - simpl in *. rewrite !length_app. simpl. lia.
  - rewrite map_cons, join_cons, !length_app by done.
    change (length (py ", ")) with 2%nat. lia.
Qed.

Lemma need_bound (x : json) (lvl : nat) :
  (need x <= S (length (enc lvl x)))%nat.
Proof.
  revert lvl. induction x as [|b|z|f|s|l IH|d IH] using json_tree_ind;
    intros lvl; try (simpl; lia).
  - rewrite need_list. destruct l as [|v l]; [simpl; lia|].
    pose proof (need_items_bound (v :: l) (S lvl) IH) as Hb.
    change (enc lvl (JList (v :: l)))
      with (91 :: join (py ", ") (map (enc (S lvl)) (v :: l)) ++ [93]).
    rewrite length_cons, length_app. simpl length at 2. lia.
  - rewrite need_dict. destruct d as [|kv d]; [simpl; lia|].
    pose proof (need_pairs_bound (kv :: d) (S lvl) IH) as Hb.
    change (enc lvl (JDict (kv :: d)))
      with (123 :: join (py ", ")
              (map (fun kv => encode_basestring_ascii kv.1 ++ py ": "
                              ++ enc (S lvl) kv.2) (kv :: d)) ++ [125]).
    rewrite length_cons, length_app. simpl length at 2. lia.
Qed.

(** ** The round trip *)

(** The decoder, run on the text of [x] with the fuel [json.loads] gives
    it, reads [x] and leaves nothing. *)
Lemma scan_once_json_dumps (x : json) :
  wf x ->
  scan_once (S (length (json_dumps x))) (skip_ws (json_dumps x)) = Some (x, []).
Proof.
  intros Hwf. unfold json_dumps.
  pose proof (skip_ws_opens_value _ [] (enc_opens_value x 0 Hwf)) as Hws.
  rewrite app_nil_r in Hws. rewrite Hws.
  pose proof (scan_once_encoded x Hwf 0%nat (S (length (enc 0 x))) []
                (need_bound x 0) I) as Hscan.
  by rewrite app_nil_r in Hscan.
Qed.

(** C7. For every well-formed JSON value [x], [json.loads(json.dumps(x))]
    returns [x]: the text stored for a log record at ingest reads back,
    when the chunk is retrieved, as the same value. *)
Theorem json_loads_json_dumps (x : json) :
  wf x -> json_loads (json_dumps x) = Some x.
Proof.
  intros Hwf. unfold json_loads.
  rewrite (scan_once_json_dumps x Hwf). reflexivity.
Qed.

End ValueRoundTrip.


Section AgentProperties.
Context `{PyFloat} `{Services}.

(** ** The context assembler *)

(** One turn of the loop appends exactly the entry of the document. *)
Lemma context_loop_spec (docs : list Document) (acc : list json) (σ : State) :
  context_loop docs acc σ = (inr (acc ++ map context_entry docs), σ).
Proof.
  revert acc. induction docs as [|doc docs IH]; intros acc; simpl.
  - by rewrite app_nil_r.
  - unfold mbind, M_bind, try_except, loads, context_entry at 1.
    destruct (json_loads (page_content doc)) as [value|]; simpl;
      rewrite IH, <- app_assoc; reflexivity.
Qed.

(** C6. The context list has the length of the retrieval result and its
    order: position [i] holds the parsed text of chunk [i] when that text
    is JSON and the text wrapped as [{"raw_content": text}] when it is
    not; no chunk is dropped, and the loop never raises. *)
Theorem context_assembler_keeps_every_chunk
    (relevant_chunks : list Document) (σ : State) :
  exists context_logs : list json,
    context_loop relevant_chunks [] σ = (inr context_logs, σ) /\
    length context_logs = length relevant_chunks /\
    forall (i : nat) (doc : Document),
      relevant_chunks !! i = Some doc ->
      context_logs !! i =
        Some match json_loads (page_content doc) with
             | Some value => value
             | None => JDict [(py "raw_content", JStr (page_content doc))]
             end.
Proof.
  exists (map context_entry relevant_chunks). split; [|split].
  - apply (context_loop_spec relevant_chunks []).
  - apply length_map.
  - intros i doc Hi. rewrite list_lookup_fmap, Hi. reflexivity.
Qed.

(** ** [analyze_logs_with_agent] *)

(** The [try] block is the call of the model, made after the key is put
    in the environment, unless the environment rejects the key. *)
Lemma analyze_logs_try_spec (question : str) (relevant_chunks : list Document)
    (api_key : str) (σ : State) :
  let prompt := context_text question (map context_entry relevant_chunks) in
  analyze_logs_try question relevant_chunks api_key σ =
    match environ_rejects api_key with
    | Some e => (inl e, σ)
    | None =>
        (run_sync (environ (keyed api_key σ)) prompt,
         asked prompt (keyed api_key σ))
    end.
Proof.
  unfold analyze_logs_try, mbind, M_bind.
  rewrite context_loop_spec. cbn [app].
  unfold os_environ_set. destruct (environ_rejects api_key); [reflexivity|].
  unfold agent_run_sync, keyed, asked. cbn [environ chroma_db screen requests].
  destruct (run_sync _ _); reflexivity.
Qed.

Lemma analyze_logs_with_agent_spec (question : str)
    (relevant_chunks : list Document) (api_key : str) (σ : State) :
  let prompt := context_text question (map context_entry relevant_chunks) in
  analyze_logs_with_agent question relevant_chunks api_key σ =
    match environ_rejects api_key with
    | Some e => (inr (error_response e), σ)
    | None =>
        (inr match run_sync (environ (keyed api_key σ)) prompt with
             | inl e => error_response e
             | inr output => output
             end,
         asked prompt (keyed api_key σ))
    end.
Proof.
  unfold analyze_logs_with_agent, try_except.
  rewrite analyze_logs_try_spec. cbv zeta.
  destruct (environ_rejects api_key); [reflexivity|].
  destruct (run_sync _ _); reflexivity.
Qed.


(** C1. [analyze_logs_with_agent] returns a response for every question,
    every list of chunks, every key, every state and every behaviour of
    the model, and never raises; when its [try] block ends with an
    exception [e] (the model call failing on the provider, on validation,
    on the network or on authentication, or the environment rejecting the
    key), the response has the answer ["Error analyzing logs: " + str(e)],
    no relevant logs and a count of zero. *)
Theorem analyze_logs_with_agent_total (question : str)
    (relevant_chunks : list Document) (api_key : str) (σ : State) :
  exists (response : LogAnalysisResponse) (σ' : State),
    analyze_logs_with_agent question relevant_chunks api_key σ
      = (inr response, σ') /\
    forall (e : exception) (σ1 : State),
      analyze_logs_try question relevant_chunks api_key σ = (inl e, σ1) ->
      answer response = py "Error analyzing logs: " ++ exception_str e /\
      relevant_logs response = [] /\
      total_logs_analyzed response = 0%Z.
Proof.
  rewrite analyze_logs_with_agent_spec, analyze_logs_try_spec. cbv zeta.
  destruct (environ_rejects api_key) as [e0|].
  - eexists _, _. split; [reflexivity|]. intros e σ1 [= <- _]. auto.
  - eexists _, _. split; [reflexivity|].
    intros e σ1 Hfail. apply (f_equal fst) in Hfail. cbn [fst] in Hfail.
    rewrite Hfail. auto.
Qed.

(** C3, as the code has it. When the call succeeds, the response
    returned is the output of the model for the prompt, unchanged:
    [total_logs_analyzed] is the number the model reported. *)
Theorem total_logs_analyzed_is_the_models (question : str)
    (relevant_chunks : list Document) (api_key : str) (σ : State)
    (output : LogAnalysisResponse) :
  (analyze_logs_try question relevant_chunks api_key σ).1 = inr output ->
  (analyze_logs_with_agent question relevant_chunks api_key σ).1 = inr output /\
  run_sync (<[py "OPENAI_API_KEY" := api_key]> (environ σ))
           (context_text question (map context_entry relevant_chunks))
    = inr output.
Proof.
  rewrite analyze_logs_with_agent_spec, analyze_logs_try_spec. cbv zeta.
  destruct (environ_rejects api_key); [discriminate|]. cbn [fst].
  change (environ (keyed api_key σ))
    with (<[py "OPENAI_API_KEY" := api_key]> (environ σ)).
  intros ->. auto.
Qed.

End AgentProperties.

(** C3, refuted as stated: one chunk is presented to the model, the call
    succeeds, and the response says seven logs were analysed. *)
Lemma total_logs_analyzed_not_the_chunk_count :
  let chunks := [@document_of toy_float 0 (JDict [(py "level", JStr (py "ERROR"))])] in
  let run := @analyze_logs_with_agent toy_float demo_services
               (py "show me errors") chunks (py "sk-test") fresh in
  (@analyze_logs_try toy_float demo_services
     (py "show me errors") chunks (py "sk-test") fresh).1 = inr demo_response /\
  run.1 = inr demo_response /\
  total_logs_analyzed demo_response <> Z.of_nat (length chunks).
Proof.
  cbv zeta. rewrite analyze_logs_with_agent_spec, analyze_logs_try_spec.
  repeat split. discriminate.
Qed.

Lemma total_logs_analyzed_is_the_models_witness :
  (@analyze_logs_try toy_float demo_services
     (py "show me errors") [] (py "sk-test") fresh).1 = inr demo_response /\
  (@analyze_logs_with_agent toy_float demo_services
     (py "show me errors") [] (py "sk-test") fresh).1 = inr demo_response.
Proof.
  assert (Htry : (@analyze_logs_try toy_float demo_services
            (py "show me errors") [] (py "sk-test") fresh).1 = inr demo_response)
    by (vm_compute; reflexivity).
  split; [exact Htry|].
  exact (proj1 (@total_logs_analyzed_is_the_models toy_float demo_services
                  _ _ _ _ _ Htry)).
Defined.

Lemma analyze_logs_with_agent_total_witness :
  exists (response : LogAnalysisResponse) (σ' : State),
    @analyze_logs_with_agent toy_float offline_services
      (py "show me errors") [] (py "sk-test") fresh = (inr response, σ') /\
    answer response = py "Error analyzing logs: Connection error." /\
    relevant_logs response = [] /\
    total_logs_analyzed response = 0%Z.
Proof.
  destruct (@analyze_logs_with_agent_total toy_float offline_services
              (py "show me errors") [] (py "sk-test") fresh)
    as (response & σ' & Hrun & Hfail).
  exists response, σ'. split; [exact Hrun|].
  eapply (Hfail (ProviderError (py "Connection error."))).
  rewrite analyze_logs_try_spec. reflexivity.
Defined.

Section AppProperties.
Context `{PyFloat} `{Services}.

(** ** The vector store *)

Lemma search_state (api_key query : str) (k : nat) (σ : State) :
  (search api_key query k σ).2 = σ.
Proof.
  unfold search. destruct (chroma_db σ); [|reflexivity].
  destruct (embed api_key query); reflexivity.
Qed.

Lemma embed_documents_docs (api_key : str) (documents : list Document)
    (chunks : list EmbeddedChunk) :
  embed_documents api_key documents = inr chunks ->
  chunk_doc <$> chunks = documents.
Proof.
  revert chunks. induction documents as [|doc rest IH]; intros chunks; simpl.
  - intros [= <-]. reflexivity.
  - destruct (embed api_key (page_content doc)); [discriminate|].
    destruct (embed_documents api_key rest); [discriminate|].
    intros [= <-]. simpl. f_equal. by apply IH.
Qed.

(** ** [get_relevant_chunks] *)

Lemma get_relevant_chunks_spec (question api_key : str) (k : nat) (σ : State) :
  get_relevant_chunks question api_key k σ =
    match (search api_key question k σ).1 with
    | inr relevant_docs => (inr relevant_docs, σ)
    | inl e =>
        (inr [],
         draw (st_error (py "Error fetching relevant chunks: " ++ exception_str e)) σ)
    end.
Proof.
  unfold get_relevant_chunks, try_except, mbind, M_bind.
  pose proof (search_state api_key question k σ) as Hσ.
  destruct (search api_key question k σ) as [[e|docs] σ']; simpl in *; subst σ';
    reflexivity.
Qed.

(** [get_relevant_chunks] touches nothing but the screen. *)
Lemma get_relevant_chunks_frame (question api_key : str) (k : nat) (σ : State) :
  let σ' := (get_relevant_chunks question api_key k σ).2 in
  environ σ' = environ σ /\ chroma_db σ' = chroma_db σ /\ requests σ' = requests σ.
Proof.
  rewrite get_relevant_chunks_spec.
  destruct (search api_key question k σ).1; simpl; auto.
Qed.

(** C9. With a store of at least [k >= 1] chunks, [get_relevant_chunks]
    returns the documents of at most [k] stored chunks, each of them one
    of the chunks ingested before, in order of non-increasing similarity
    to the embedding of the question. *)
Theorem search_returns_k_nearest (question api_key : str) (k : nat)
    (σ : State) (chunks : list EmbeddedChunk) :
  chroma_db σ = Some chunks ->
  (1 <= k)%nat -> (k <= length chunks)%nat ->
  exists results : list EmbeddedChunk,
    (get_relevant_chunks question api_key k σ).1 = inr (chunk_doc <$> results) /\
    (length results <= k)%nat /\
    (forall c : EmbeddedChunk, c ∈ results -> c ∈ chunks) /\
    forall q : vector,
      embed api_key question = inr q ->
      StronglySorted (closer q) results.
Proof.
  intros Hstore _ _. rewrite get_relevant_chunks_spec. unfold search.
  rewrite Hstore. destruct (embed api_key question) as [e|q] eqn:Hq; simpl.
  - exists []. repeat split; simpl; [lia|set_solver|discriminate].
  - exists (take k (merge_sort (closer q) chunks)). repeat split.
    + rewrite length_take. lia.
    + intros c Hc. apply elem_of_take in Hc as (i & Hi & _).
      apply list_elem_of_lookup_2 in Hi.
      by rewrite merge_sort_Permutation in Hi.
    + intros q' [= <-].
      assert (Hsorted : StronglySorted (closer q) (merge_sort (closer q) chunks)).
      { apply StronglySorted_merge_sort.
        - intros x y z Hxy Hyz. unfold closer in *. lia.
        - intros x y. unfold closer. lia. }
      revert Hsorted. generalize (merge_sort (closer q) chunks) as l.
      clear. intros l. revert k.
      induction l as [|x l IH]; intros k Hs; destruct k; simpl;
        try constructor.
      * apply IH. by inversion Hs.
      * inversion Hs as [|? ? _ Hall]; subst.
        apply Forall_forall. intros y Hy.
        rewrite Forall_forall in Hall. apply Hall.
        apply elem_of_take in Hy as (i & Hi & _).
        by apply list_elem_of_lookup_2 in Hi.
Qed.

End AppProperties.

Section HandlerProperties.
Context `{PyFloat} `{Services}.

(** ** The upload handler *)

Lemma documents_loop_spec (i : nat) (json_data : list json)
    (documents : list Document) :
  documents_loop i json_data documents
    = documents ++ imap (fun j => document_of (i + j)) json_data.
Proof.
  revert i documents. induction json_data as [|x rest IH]; intros i documents; simpl.
  - by rewrite app_nil_r.
  - rewrite IH, <- app_assoc. simpl. rewrite Nat.add_0_r.
    do 2 f_equal. apply imap_ext. intros j y _. simpl.
    f_equal. lia.
Qed.

(** Everything the handler can do, by cases on its input. *)
Lemma process_json_logs_spec (uploaded_file : option str) (σ : State) :
  process_json_logs uploaded_file σ =
    (inr tt,
     match uploaded_file with
     | None => draw (st_error (py "Please upload a JSON file")) σ
     | Some file =>
       if negb (truthy (environ σ !! py "OPENAI_API_KEY")) then
         draw (st_error (py "Please enter your OpenAI API key")) σ
       else
         match json_loads file with
         | None => draw (st_error (py "Invalid JSON file")) σ
         | Some (JList entries) =>
             let documents := documents_loop 0 entries [] in
             let σ1 := draw (st_info (py "Found " ++ repr_nat (length entries)
                                      ++ py " log entries")) σ in
             match embed_documents (default [] (environ σ !! py "OPENAI_API_KEY"))
                                   documents with
             | inl (JSONDecodeError _) => draw (st_error (py "Invalid JSON file")) σ1
             | inl e => draw (st_error (py "Error: " ++ exception_str e)) σ1
             | inr chunks =>
                 draw (st_info (py "Embeddings stored in ChromaDB"))
                   (draw (st_success (0x2705 :: py " Successfully processed "
                                      ++ repr_nat (length documents) ++ py " logs!"))
                      (stored chunks σ1))
             end
         | Some _ =>
             draw (st_error (py "JSON file should contain an array of objects")) σ
         end
     end).
Proof.
  unfold process_json_logs, mbind, M_bind, os_getenv. cbn [fst snd].
  destruct uploaded_file as [file|]; [|reflexivity].
  destruct (negb (truthy (environ σ !! py "OPENAI_API_KEY"))); [reflexivity|].
  unfold try_except, loads, mbind, M_bind.
  destruct (json_loads file) as [[]|]; try reflexivity.
  cbn [mret M_ret show]. unfold ingest. cbn [environ draw].
  destruct (embed_documents _ _) as [[]|chunks]; reflexivity.
Qed.

(** C5. When the uploaded text parses to a value that is not an array,
    nothing is ingested: the store is as it was (absent if it was absent)
    and no request is made; with a key in the environment the handler
    stops on the shape error ["JSON file should contain an array of
    objects"] and does nothing else. *)
Theorem non_array_upload_is_rejected (file : str) (json_data : json)
    (σ : State) :
  json_loads file = Some json_data ->
  (forall entries : list json, json_data <> JList entries) ->
  chroma_db (process_json_logs (Some file) σ).2 = chroma_db σ /\
  requests (process_json_logs (Some file) σ).2 = requests σ /\
  (truthy (environ σ !! py "OPENAI_API_KEY") = true ->
   process_json_logs (Some file) σ =
     (inr tt,
      draw (st_error (py "JSON file should contain an array of objects")) σ)).
Proof.
  intros Hload Hshape. rewrite process_json_logs_spec, Hload. cbn [snd].
  destruct (truthy (environ σ !! py "OPENAI_API_KEY")); cbn [negb];
    destruct json_data; try (repeat split; congruence).
  all: exfalso; eapply Hshape; reflexivity.
Qed.

(** C4. For an array of [N] elements, whatever the elements are, the
    handler builds exactly [N] documents, the one at position [i] with
    text [json.dumps] of element [i] and metadata [{"index": i}]; and when
    the array is uploaded and its embedding succeeds, the chunks appended
    to the store are the chunks of these [N] documents, in order. *)
Theorem ingest_one_chunk_per_element (file : str) (entries : list json)
    (σ : State) (chunks : list EmbeddedChunk) :
  (length (documents_loop 0 entries []) = length entries /\
   forall (i : nat) (log_entry : json),
     entries !! i = Some log_entry ->
     documents_loop 0 entries [] !! i =
       Some {| page_content := json_dumps log_entry;
               metadata := [(py "index", JInt (Z.of_nat i))] |}) /\
  (truthy (environ σ !! py "OPENAI_API_KEY") = true ->
   json_loads file = Some (JList entries) ->
   embed_documents (default [] (environ σ !! py "OPENAI_API_KEY"))
                   (documents_loop 0 entries []) = inr chunks ->
   chroma_db (process_json_logs (Some file) σ).2
     = Some (default [] (chroma_db σ) ++ chunks) /\
   length chunks = length entries /\
   chunk_doc <$> chunks = documents_loop 0 entries []).
Proof.
  assert (Hlen : length (documents_loop 0 entries []) = length entries).
  { rewrite documents_loop_spec. apply length_imap. }
  split; [split; [exact Hlen|]|].
  - intros i log_entry Hi.
    rewrite documents_loop_spec. cbn [app].
    rewrite list_lookup_imap, Hi. reflexivity.
  - intros Hkey Hload Hembed.
    rewrite process_json_logs_spec, Hkey, Hload. cbn [negb snd].
    cbv zeta. rewrite Hembed. split; [reflexivity|].
    apply embed_documents_docs in Hembed.
    split; [|exact Hembed].
    by rewrite <- (length_fmap chunk_doc), Hembed.
Qed.

(** ** The query handler *)

(** C10. Whatever exception the search ends with, [get_relevant_chunks]
    turns it into the empty list; and when [get_relevant_chunks] returns
    the empty list, the query handler only draws the warning ["No
    relevant logs found for your question."]: the agent is not run, no
    request reaches the model and no response is drawn. *)
Theorem no_analysis_without_chunks (question : str) (num_chunks : nat)
    (api_key : str) (σ : State) :
  environ σ !! py "OPENAI_API_KEY" = Some api_key ->
  api_key <> [] ->
  question <> [] ->
  (forall (e : exception) (σ1 : State),
     search api_key question num_chunks σ = (inl e, σ1) ->
     (get_relevant_chunks question api_key num_chunks σ).1 = inr []) /\
  ((get_relevant_chunks question api_key num_chunks σ).1 = inr [] ->
   analyze_logs_click question num_chunks σ =
     (inr tt,
      draw (st_warning (py "No relevant logs found for your question."))
           (get_relevant_chunks question api_key num_chunks σ).2) /\
   requests (analyze_logs_click question num_chunks σ).2 = requests σ).
Proof.
  intros Hkey Hk Hq. split.
  - intros e σ1 Hs. rewrite get_relevant_chunks_spec, Hs. reflexivity.
  - intros Hnone.
    assert (Hrun : analyze_logs_click question num_chunks σ =
      (inr tt,
       draw (st_warning (py "No relevant logs found for your question."))
            (get_relevant_chunks question api_key num_chunks σ).2)).
    { unfold analyze_logs_click, try_except, mbind, M_bind, os_getenv.
      rewrite Hkey. destruct api_key as [|c api_key]; [done|].
      destruct question as [|c' question]; [done|].
      cbn [truthy default from_option id].
      destruct (get_relevant_chunks (c' :: question) (c :: api_key) num_chunks σ)
        as [[e|docs] σ']; cbn [fst snd] in *; [discriminate|].
      injection Hnone as ->. reflexivity. }
    split; [exact Hrun|]. rewrite Hrun. cbn [snd draw requests].
    apply get_relevant_chunks_frame.
Qed.

(** ** The API key *)

(** C8, as the code has it. The key is an argument of every operation
    that reaches a provider. [get_relevant_chunks] and the upload handler
    leave the environment of the process as it was;
    [analyze_logs_with_agent] writes the key into
    [os.environ["OPENAI_API_KEY"]], where it stays after the call, whether
    the model call succeeded or not (a key that the environment cannot
    hold is not written). *)
Theorem api_key_written_to_environ_by_agent_only (question api_key : str)
    (relevant_chunks : list Document) (k : nat) (uploaded_file : option str)
    (σ : State) :
  environ (analyze_logs_with_agent question relevant_chunks api_key σ).2
    = match environ_rejects api_key with
      | None => <[py "OPENAI_API_KEY" := api_key]> (environ σ)
      | Some _ => environ σ
      end /\
  environ (get_relevant_chunks question api_key k σ).2 = environ σ /\
  environ (process_json_logs uploaded_file σ).2 = environ σ.
Proof.
  split; [|split].
  - rewrite analyze_logs_with_agent_spec. cbv zeta.
    destruct (environ_rejects api_key); reflexivity.
  - apply get_relevant_chunks_frame.
  - rewrite process_json_logs_spec. cbn [snd].
    destruct uploaded_file as [file|]; [|reflexivity].
    destruct (negb _); [reflexivity|].
    destruct (json_loads file) as [[]|]; try reflexivity.
    cbv zeta. destruct (embed_documents _ _) as [[]|]; reflexivity.
Qed.

End HandlerProperties.

(** C2. The code does not do what the claim says.  On [configured] (the
    key is set, nothing was ingested, so there is no store) the search of
    the store raises [StoreNotFoundError], but [get_relevant_chunks]
    catches it and returns the empty list, the value it also returns on a
    store that exists and holds nothing.  The click on "Analyze Logs"
    therefore ends on the warning ["No relevant logs found for your
    question."] in both cases, and the warning ["No ChromaDB found. ..."]
    that the chat tab keeps for the missing store is not drawn. *)
Lemma missing_store_reported_as_no_match :
  let question := py "show me errors" in
  let empty_store :=
    {| environ := environ configured; chroma_db := Some [];
       screen := []; requests := [] |} in
  let no_match := st_warning (py "No relevant logs found for your question.") in
  chroma_db configured = None /\
  (exists msg : str,
     (@search demo_services (py "sk-test") question 1 configured).1
       = inl (StoreNotFoundError msg) /\
     screen (@analyze_logs_click toy_float demo_services question 1 configured).2
       = [st_error (py "Error fetching relevant chunks: " ++ msg); no_match]) /\
  (@get_relevant_chunks demo_services question (py "sk-test") 1 configured).1
    = inr [] /\
  (@get_relevant_chunks demo_services question (py "sk-test") 1 empty_store).1
    = inr [] /\
  screen (@analyze_logs_click toy_float demo_services question 1 empty_store).2
    = [no_match] /\
  no_chroma_warning
    ∉ screen (@analyze_logs_click toy_float demo_services question 1 configured).2.
Proof.
  cbv zeta. split; [reflexivity|]. split.
  { eexists. split; [reflexivity|]. vm_compute. reflexivity. }
  split; [reflexivity|]. split; [reflexivity|]. split; [vm_compute; reflexivity|].
  assert (Hscreen :
    screen (@analyze_logs_click toy_float demo_services (py "show me errors") 1
              configured).2
      = [st_error (py "Error fetching relevant chunks: "
                   ++ py "no collection in ./chroma_db");
         st_warning (py "No relevant logs found for your question.")])
    by (vm_compute; reflexivity).
  rewrite Hscreen, !not_elem_of_cons.
  split; [discriminate|]. split; [|apply not_elem_of_nil].
  unfold no_chroma_warning. intros [=].
Qed.

(** C8, refuted as stated: the key is not in the environment before the
    call and is there after it. *)
Lemma api_key_left_in_environ :
  let σ' := (@analyze_logs_with_agent toy_float offline_services
               (py "show me errors") [] (py "sk-secret") fresh).2 in
  environ fresh !! py "OPENAI_API_KEY" = None /\
  environ σ' !! py "OPENAI_API_KEY" = Some (py "sk-secret").
Proof.
  cbv zeta. rewrite analyze_logs_with_agent_spec. split.
  - apply lookup_empty.
  - change (environ_rejects (py "sk-secret")) with (@None exception).
    cbn [snd asked keyed environ]. apply lookup_insert_eq.
Qed.

Section EndToEnd.
Context `{PyFloat} `{Services}.

(** X15. What was uploaded is what the agent is shown: the context
    assembled from the documents made of well-formed entries is the
    entries. *)
Corollary context_of_ingested_entries (entries : list json) (σ : State) :
  Forall wf entries ->
  context_loop (documents_loop 0 entries []) [] σ = (inr entries, σ).
Proof.
  intros Hwf. rewrite context_loop_spec, documents_loop_spec.
  cbn [app]. do 2 f_equal. generalize 0%nat as i.
  induction Hwf as [|x l Hx _ IH]; intros i; [done|].
  cbn [imap map]. f_equal.
  - unfold context_entry, document_of, json_loads. cbn [page_content].
    by rewrite scan_once_json_dumps.
  - rewrite <- (IH (S i)) at 2. f_equal. apply imap_ext. intros j y _.
    cbn. f_equal. lia.
Qed.

End EndToEnd.

(** A well-formed record with text beyond ASCII, a negative number, a
    float, a nested list and a nested dict. *)
Lemma json_loads_json_dumps_witness :
  let x :=
    JDict [(py "level", JStr (py "ERROR"));
           (py "msg", JStr [116; 105; 109; 101; 111; 117; 116; 10; 233; 0x1f4ca]);
           (py "code", JInt (-504));
           (py "load", JFloat (S754_zero false));
           (py "tags", JList [JNull; JBool true; JList []; JDict []])] in
  @wf toy_float x /\ @json_loads toy_float (@json_dumps toy_float x) = Some x.
Proof.
  cbv zeta.
  refine ((fun Hwf => conj Hwf (@json_loads_json_dumps toy_float _ Hwf)) _).
  split.
  - apply (bool_decide_unpack _). vm_compute. exact I.
  - cbn [fst snd].
    split; [closed_text|]. split; [closed_text|].
    split; [closed_text|]. split; [closed_text|].
    split; [closed_text|]. split; [closed_text|].
    split; [closed_text|]. split.
    + split; [|reflexivity].
      exists false, [48], [46; 48], [46; 48], [], [].
      repeat split. left. discriminate.
    + split; [closed_text|]. split; [closed_text|]. exact I.
Defined.

(** ** The theorems at work on the two-record scenario *)

Lemma ingest_one_chunk_per_element_witness :
  truthy (environ configured !! py "OPENAI_API_KEY") = true /\
  @json_loads toy_float two_logs_file = Some (JList two_logs) /\
  @embed_documents demo_services
     (default [] (environ configured !! py "OPENAI_API_KEY"))
     (@documents_loop toy_float 0 two_logs []) = inr two_chunks /\
  chroma_db (@process_json_logs toy_float demo_services (Some two_logs_file) configured).2
    = Some (default [] (chroma_db configured) ++ two_chunks) /\
  length two_chunks = length two_logs /\
  chunk_doc <$> two_chunks = @documents_loop toy_float 0 two_logs [].
Proof.
  assert (H1 : truthy (environ configured !! py "OPENAI_API_KEY") = true)
    by (vm_compute; reflexivity).
  assert (H2 : @json_loads toy_float two_logs_file = Some (JList two_logs))
    by (vm_compute; reflexivity).
  assert (H3 : @embed_documents demo_services
            (default [] (environ configured !! py "OPENAI_API_KEY"))
            (@documents_loop toy_float 0 two_logs []) = inr two_chunks)
    by (vm_compute; reflexivity).
  exact (conj H1 (conj H2 (conj H3
    (proj2 (@ingest_one_chunk_per_element toy_float demo_services
              two_logs_file two_logs configured two_chunks) H1 H2 H3)))).
Defined.

Lemma non_array_upload_is_rejected_witness :
  @json_loads toy_float one_object_file
    = Some (JDict [(py "level", JStr (py "ERROR"))]) /\
  chroma_db (@process_json_logs toy_float demo_services (Some one_object_file) configured).2
    = chroma_db configured /\
  requests (@process_json_logs toy_float demo_services (Some one_object_file) configured).2
    = requests configured /\
  (truthy (environ configured !! py "OPENAI_API_KEY") = true ->
   @process_json_logs toy_float demo_services (Some one_object_file) configured =
     (inr tt,
      draw (st_error (py "JSON file should contain an array of objects")) configured)).
Proof.
  assert (H1 : @json_loads toy_float one_object_file
                 = Some (JDict [(py "level", JStr (py "ERROR"))]))
    by (vm_compute; reflexivity).
  split; [exact H1|].
  apply (@non_array_upload_is_rejected toy_float demo_services
           one_object_file _ configured H1).
  intros entries. discriminate.
Defined.

Lemma search_returns_k_nearest_witness :
  chroma_db ingested = Some two_chunks /\
  (1 <= 1)%nat /\ (1 <= length two_chunks)%nat /\
  exists results : list EmbeddedChunk,
    (@get_relevant_chunks demo_services (py "show me errors") (py "sk-test") 1 ingested).1
      = inr (chunk_doc <$> results) /\
    (length results <= 1)%nat /\
    (forall c : EmbeddedChunk, c ∈ results -> c ∈ two_chunks) /\
    forall q : vector,
      @embed demo_services (py "sk-test") (py "show me errors") = inr q ->
      StronglySorted (@closer demo_services q) results.
Proof.
  assert (H1 : chroma_db ingested = Some two_chunks) by reflexivity.
  assert (H2 : (1 <= 1)%nat) by lia.
  assert (H3 : (1 <= length two_chunks)%nat) by (vm_compute; lia).
  exact (conj H1 (conj H2 (conj H3
    (@search_returns_k_nearest demo_services
       (py "show me errors") (py "sk-test") 1%nat ingested two_chunks H1 H2 H3)))).
Defined.

Lemma no_analysis_without_chunks_witness :
  environ configured !! py "OPENAI_API_KEY" = Some (py "sk-test") /\
  (forall (e : exception) (σ1 : State),
     @search demo_services (py "sk-test") (py "show me errors") 5 configured = (inl e, σ1) ->
     (@get_relevant_chunks demo_services (py "show me errors") (py "sk-test") 5 configured).1
       = inr []) /\
  ((@get_relevant_chunks demo_services (py "show me errors") (py "sk-test") 5 configured).1
     = inr [] ->
   @analyze_logs_click toy_float demo_services (py "show me errors") 5 configured =
     (inr tt,
      draw (st_warning (py "No relevant logs found for your question."))
           (@get_relevant_chunks demo_services (py "show me errors") (py "sk-test") 5
              configured).2) /\
   requests (@analyze_logs_click toy_float demo_services (py "show me errors") 5 configured).2
     = requests configured).
Proof.
  assert (H1 : environ configured !! py "OPENAI_API_KEY" = Some (py "sk-test"))
    by (vm_compute; reflexivity).
  split; [exact H1|].
  apply (@no_analysis_without_chunks toy_float demo_services
           (py "show me errors") 5%nat (py "sk-test") configured H1);
    discriminate.
Defined.

(* ===================================================================== *)
(** * Further properties of the two files *)
(* ===================================================================== *)

Section ChatTab.
Context `{PyFloat} `{Services}.

(** ** The display of a response *)

Lemma drawn_nil (σ : State) : drawn [] σ = σ.
Proof. destruct σ. unfold drawn. simpl. by rewrite app_nil_r. Qed.

Lemma drawn_app (ws ws' : list widget) (σ : State) :
  drawn ws' (drawn ws σ) = drawn (ws ++ ws') σ.
Proof. unfold drawn. simpl. by rewrite app_assoc. Qed.

Lemma draw_drawn (w : widget) (σ : State) : draw w σ = drawn [w] σ.
Proof. reflexivity. Qed.

Lemma relevant_logs_loop_spec (i : nat) (logs : list (list (str * json)))
    (σ : State) :
  relevant_logs_loop i logs σ
    = (inr tt, drawn (concat (imap (fun j => log_widgets (i + j)) logs)) σ).
Proof.
  revert i σ. induction logs as [|log_entry logs IH]; intros i σ.
  - simpl. by rewrite drawn_nil.
  - cbn [relevant_logs_loop]. unfold mbind, M_bind, show. rewrite IH.
    rewrite !draw_drawn, !drawn_app. cbn [imap concat]. do 2 f_equal.
    rewrite Nat.add_0_r. unfold log_widgets at 2. cbn [app]. do 3 f_equal.
    f_equal. apply imap_ext. intros j y _. cbn. f_equal. lia.
Qed.

Lemma length_concat_triples {A B : Type} (f : nat -> A -> list B) (l : list A) :
  (forall j x, length (f j x) = 3%nat) ->
  length (concat (imap f l)) = (3 * length l)%nat.
Proof.
  revert f. induction l as [|x l IH]; intros f Hf; [done|].
  cbn [imap concat]. rewrite length_app, Hf, IH by (intros; apply Hf).
  simpl. lia.
Qed.

Lemma lookup_concat_triples {A B : Type} (f : nat -> A -> list B) (l : list A)
    (j r : nat) (x : A) :
  (forall j x, length (f j x) = 3%nat) ->
  l !! j = Some x -> (r < 3)%nat ->
  concat (imap f l) !! (3 * j + r)%nat = f j x !! r.
Proof.
  revert f j. induction l as [|y l IH]; intros f j Hf Hj Hr; [done|].
  cbn [imap concat]. destruct j as [|j].
  - injection Hj as ->. rewrite lookup_app_l by (rewrite Hf; lia).
    by rewrite Nat.mul_0_r.
  - rewrite lookup_app_r by (rewrite Hf; lia). rewrite Hf.
    replace (3 * S j + r - 3)%nat with (3 * j + r)%nat by lia.
    apply (IH (f ∘ S) j); [intros; apply Hf|done|done].
Qed.

(** X1. The loop over the cited logs draws, for the log at position [j],
    the heading ["**Relevant Log j+1:**"], the log itself and a divider,
    in the order of the list and with nothing in between; it does not
    raise and touches nothing but the screen. *)
Theorem relevant_logs_loop_draws (logs : list (list (str * json))) (σ : State) :
  exists ws : list widget,
    relevant_logs_loop 0 logs σ = (inr tt, drawn ws σ) /\
    length ws = (3 * length logs)%nat /\
    forall (j : nat) (log_entry : list (str * json)),
      logs !! j = Some log_entry ->
      ws !! (3 * j)%nat
        = Some (st_markdown (py "**Relevant Log " ++ repr_nat (j + 1) ++ py ":**")) /\
      ws !! (3 * j + 1)%nat = Some (st_json log_entry) /\
      ws !! (3 * j + 2)%nat = Some st_divider.
Proof.
  exists (concat (imap log_widgets logs)). split; [|split].
  - apply (relevant_logs_loop_spec 0).
  - by apply length_concat_triples.
  - intros j log_entry Hj.
    pose proof (fun r => lookup_concat_triples log_widgets logs j r log_entry
                           (fun _ _ => eq_refl) Hj) as Hlook.
    rewrite <- (Nat.add_0_r (3 * j)) at 1.
    rewrite !Hlook by lia. done.
Qed.

(** ** The query handler, case by case *)

(** What the handler does once documents were retrieved: the agent runs
    and its response is drawn. *)
Lemma analyze_logs_click_answered (question : str) (num_chunks : nat)
    (api_key : str) (docs : list Document) (σ : State) :
  environ σ !! py "OPENAI_API_KEY" = Some api_key ->
  api_key <> [] -> question <> [] -> docs <> [] ->
  (get_relevant_chunks question api_key num_chunks σ).1 = inr docs ->
  let σ1 := (get_relevant_chunks question api_key num_chunks σ).2 in
  let run := analyze_logs_with_agent question docs api_key σ1 in
  exists response : LogAnalysisResponse,
    run.1 = inr response /\
    analyze_logs_click question num_chunks σ
      = (inr tt, drawn (response_widgets response) run.2).
Proof.
  intros Hkey Hk Hq Hd Hdocs σ1 run.
  assert (Hrun : exists response, run.1 = inr response).
  { unfold run. rewrite analyze_logs_with_agent_spec. cbv zeta.
    destruct (environ_rejects api_key); eauto. }
  destruct Hrun as [response Hrun]. exists response. split; [exact Hrun|].
  unfold analyze_logs_click, try_except, mbind, M_bind, os_getenv.
  rewrite Hkey. destruct api_key as [|c api_key]; [done|].
  destruct question as [|c' question]; [done|].
  cbn [truthy default from_option id].
  unfold run, σ1 in *.
  destruct (get_relevant_chunks (c' :: question) (c :: api_key) num_chunks σ)
    as [[e|docs'] σ']; cbn [fst snd] in *; [discriminate|].
  injection Hdocs as ->. destruct docs as [|doc docs]; [done|].
  destruct (analyze_logs_with_agent (c' :: question) (doc :: docs) (c :: api_key) σ')
    as [[e|response'] σ'']; cbn [fst snd] in *; [discriminate|].
  injection Hrun as ->.
  unfold show, response_widgets.
  destruct (relevant_logs response) as [|l logs] eqn:Hlogs.
  - cbn [mret M_ret]. rewrite !draw_drawn, !drawn_app. reflexivity.
  - rewrite relevant_logs_loop_spec, !draw_drawn, !drawn_app. reflexivity.
Qed.

(** The handler in full: which state it ends in, by cases. *)
Lemma analyze_logs_click_spec (question : str) (num_chunks : nat) (σ : State) :
  let key := default [] (environ σ !! py "OPENAI_API_KEY") in
  let retrieval := get_relevant_chunks question key num_chunks σ in
  analyze_logs_click question num_chunks σ =
    (inr tt,
     if truthy (environ σ !! py "OPENAI_API_KEY") then
       match question with
       | [] => drawn [st_warning (py "Please enter a question")] σ
       | _ :: _ =>
           match retrieval.1 with
           | inr (doc :: docs) =>
               let run := analyze_logs_with_agent question (doc :: docs) key retrieval.2 in
               match run.1 with
               | inr response => drawn (response_widgets response) run.2
               | inl _ => run.2
               end
           | _ =>
               drawn [st_warning (py "No relevant logs found for your question.")]
                     retrieval.2
           end
       end
     else
       drawn [st_error (py "Please set OPENAI_API_KEY environment variable");
              st_info (py "You can set it by running: `export OPENAI_API_KEY=your_api_key_here`")]
             σ).
Proof.
  cbv zeta.
  assert (Hnokey : truthy (environ σ !! py "OPENAI_API_KEY") = false ->
    analyze_logs_click question num_chunks σ =
      (inr tt,
       drawn [st_error (py "Please set OPENAI_API_KEY environment variable");
              st_info (py "You can set it by running: `export OPENAI_API_KEY=your_api_key_here`")]
             σ)).
  { intros Hfalse.
    unfold analyze_logs_click, try_except, mbind, M_bind, os_getenv.
    rewrite Hfalse. unfold show. by rewrite !draw_drawn, drawn_app. }
  destruct (environ σ !! py "OPENAI_API_KEY") as [[|c api_key]|] eqn:Hkey;
    [by apply Hnokey| |by apply Hnokey].
  clear Hnokey. destruct question as [|c' question].
  { unfold analyze_logs_click, try_except, mbind, M_bind, os_getenv.
    rewrite Hkey. reflexivity. }
  cbn [truthy default from_option id].
  destruct (get_relevant_chunks (c' :: question) (c :: api_key) num_chunks σ).1
    as [e|[|doc docs]] eqn:Hdocs.
  - rewrite get_relevant_chunks_spec in Hdocs.
    destruct (search _ _ _ _).1; discriminate.
  - unfold analyze_logs_click, try_except, mbind, M_bind, os_getenv.
    rewrite Hkey. cbn [truthy default from_option id].
    destruct (get_relevant_chunks (c' :: question) (c :: api_key) num_chunks σ)
      as [[e|docs'] σ']; cbn [fst snd] in *; [discriminate|].
    injection Hdocs as ->. reflexivity.
  - destruct (analyze_logs_click_answered (c' :: question) num_chunks
                (c :: api_key) (doc :: docs) σ Hkey) as (response & Hrun & Hclick);
      try done.
    rewrite Hclick. cbv zeta in Hrun. by rewrite Hrun.
Qed.

(** What the agent leaves behind. *)
Lemma analyze_logs_with_agent_state (question : str)
    (relevant_chunks : list Document) (api_key : str) (σ : State) :
  let σ' := (analyze_logs_with_agent question relevant_chunks api_key σ).2 in
  chroma_db σ' = chroma_db σ /\ screen σ' = screen σ /\
  environ σ' = match environ_rejects api_key with
               | None => <[py "OPENAI_API_KEY" := api_key]> (environ σ)
               | Some _ => environ σ
               end /\
  requests σ' = match environ_rejects api_key with
                | None => requests σ
                            ++ [context_text question (map context_entry relevant_chunks)]
                | Some _ => requests σ
                end.
Proof.
  rewrite analyze_logs_with_agent_spec. cbv zeta.
  destruct (environ_rejects api_key); auto.
Qed.

(** What a call of [get_relevant_chunks] returns, as a list. *)
Lemma get_relevant_chunks_returns (question api_key : str) (k : nat) (σ : State) :
  exists docs : list Document,
    (get_relevant_chunks question api_key k σ).1 = inr docs /\
    (exists ws, (get_relevant_chunks question api_key k σ).2 = drawn ws σ /\
                Forall (fun w => exists body, w = st_error body) ws).
Proof.
  rewrite get_relevant_chunks_spec.
  destruct (search api_key question k σ).1 as [e|docs].
  - exists []. split; [done|]. eexists [_]. split; [apply draw_drawn|].
    repeat constructor. eauto.
  - exists docs. split; [done|]. exists []. by rewrite drawn_nil.
Qed.

Lemma Forall_concat_imap {A B : Type} (P : B -> Prop) (f : nat -> A -> list B)
    (l : list A) :
  (forall j x, Forall P (f j x)) -> Forall P (concat (imap f l)).
Proof.
  revert f. induction l as [|x l IH]; intros f Hf; [constructor|].
  cbn [imap concat]. apply Forall_app. split; [apply Hf|].
  apply IH. intros; apply Hf.
Qed.

Lemma response_widgets_no_warning (response : LogAnalysisResponse) :
  Forall (fun w => forall body, w <> st_warning body) (response_widgets response).
Proof.
  unfold response_widgets. apply Forall_app. split; [repeat constructor; done|].
  destruct (relevant_logs response) as [|l logs]; [constructor|].
  constructor; [done|]. apply Forall_concat_imap. intros j x.
  repeat constructor; done.
Qed.

(** X2. When the key is set, the question is not empty and the retrieval
    returned documents, the handler runs the agent on exactly these
    documents and draws its response after whatever the retrieval drew:
    the heading, the answer, and, only if the response cites logs, the
    expander with three widgets per cited log. *)
Theorem answered_click_draws_response (question : str) (num_chunks : nat)
    (api_key : str) (docs : list Document) (σ : State) :
  environ σ !! py "OPENAI_API_KEY" = Some api_key ->
  api_key <> [] -> question <> [] -> docs <> [] ->
  (get_relevant_chunks question api_key num_chunks σ).1 = inr docs ->
  let σ1 := (get_relevant_chunks question api_key num_chunks σ).2 in
  exists response : LogAnalysisResponse,
    (analyze_logs_with_agent question docs api_key σ1).1 = inr response /\
    (analyze_logs_click question num_chunks σ).1 = inr tt /\
    screen (analyze_logs_click question num_chunks σ).2
      = screen σ1 ++ response_widgets response /\
    length (response_widgets response)
      = match relevant_logs response with
        | [] => 3%nat
        | logs => (4 + 3 * length logs)%nat
        end.
Proof.
  intros Hkey Hk Hq Hd Hdocs σ1.
  destruct (analyze_logs_click_answered question num_chunks api_key docs σ
              Hkey Hk Hq Hd Hdocs) as (response & Hrun & Hclick).
  exists response. split; [exact Hrun|]. rewrite Hclick. split; [done|].
  cbn [snd drawn screen]. split.
  - f_equal. apply analyze_logs_with_agent_state.
  - unfold response_widgets. destruct (relevant_logs response) as [|l logs]; [done|].
    rewrite length_app. cbn [length].
    rewrite length_concat_triples by done. cbn [length]. lia.
Qed.

(** X3. When the model call fails with [e] on such a click, the handler
    shows the failure as the answer: after what the retrieval drew come
    the usual heading and ["Error analyzing logs: " + str(e)], and no
    expander. *)
Theorem failed_model_call_is_drawn_as_answer (question : str) (num_chunks : nat)
    (api_key : str) (docs : list Document) (σ : State) (e : exception) :
  environ σ !! py "OPENAI_API_KEY" = Some api_key ->
  api_key <> [] -> question <> [] -> docs <> [] ->
  (get_relevant_chunks question api_key num_chunks σ).1 = inr docs ->
  environ_rejects api_key = None ->
  run_sync (environ σ) (context_text question (map context_entry docs)) = inl e ->
  screen (analyze_logs_click question num_chunks σ).2
    = screen (get_relevant_chunks question api_key num_chunks σ).2
      ++ [ st_subheader (0x1f4ca :: py " Analysis Results");
           st_markdown (py "### " ++ 0x1f4a1 :: py " Answer");
           st_write (py "Error analyzing logs: " ++ exception_str e) ].
Proof.
  intros Hkey Hk Hq Hd Hdocs Hok Hfail.
  destruct (analyze_logs_click_answered question num_chunks api_key docs σ
              Hkey Hk Hq Hd Hdocs) as (response & Hrun & Hclick).
  rewrite Hclick. cbn [snd drawn screen].
  pose proof (analyze_logs_with_agent_state question docs api_key
    (get_relevant_chunks question api_key num_chunks σ).2) as (_ & -> & _).
  f_equal.
  rewrite analyze_logs_with_agent_spec, Hok in Hrun. cbv zeta in Hrun.
  cbn [fst] in Hrun.
  assert (Henv : environ (keyed api_key
            (get_relevant_chunks question api_key num_chunks σ).2) = environ σ).
  { cbn [keyed environ].
    destruct (get_relevant_chunks_frame question api_key num_chunks σ) as (-> & _).
    by apply insert_id. }
  rewrite Henv, Hfail in Hrun. injection Hrun as <-. reflexivity.
Qed.

(** Every warning the handler draws is one of its two own. *)
Lemma analyze_logs_click_screen (question : str) (num_chunks : nat) (σ : State) :
  (analyze_logs_click question num_chunks σ).1 = inr tt /\
  exists ws : list widget,
    screen (analyze_logs_click question num_chunks σ).2 = screen σ ++ ws /\
    Forall (fun w => forall body, w = st_warning body ->
              body = py "Please enter a question" \/
              body = py "No relevant logs found for your question.") ws.
Proof.
  rewrite analyze_logs_click_spec. cbv zeta. split; [done|]. cbn [snd].
  destruct (truthy _).
  2:{ eexists. split; [reflexivity|].
      constructor; [done|]. constructor; [done|constructor]. }
  destruct question as [|c question].
  { eexists. split; [reflexivity|]. constructor; [|constructor].
    intros body [= <-]. by left. }
  set (key := default [] (environ σ !! py "OPENAI_API_KEY")).
  destruct (get_relevant_chunks_returns (c :: question) key num_chunks σ)
    as (docs & Hdocs & ws & Hσ1 & Hws).
  rewrite Hdocs, Hσ1.
  assert (Hpre : Forall (fun w => forall body, w = st_warning body ->
              body = py "Please enter a question" \/
              body = py "No relevant logs found for your question.") ws).
  { eapply Forall_impl; [exact Hws|]. intros w [b ->] body. done. }
  destruct docs as [|doc docs].
  - exists (ws ++ [st_warning (py "No relevant logs found for your question.")]).
    split; [cbn [drawn screen]; by rewrite app_assoc|].
    apply Forall_app. split; [done|]. constructor; [|constructor].
    intros body [= <-]. by right.
  - pose proof (analyze_logs_with_agent_state (c :: question) (doc :: docs) key
                  (drawn ws σ)) as (_ & Hscreen & _).
    destruct (analyze_logs_with_agent (c :: question) (doc :: docs) key (drawn ws σ))
      as [[e|response] σ2]; cbn [fst snd] in *.
    + exists ws. split; [by rewrite Hscreen|done].
    + exists (ws ++ response_widgets response). split.
      * cbn [drawn screen]. rewrite Hscreen. cbn [drawn screen].
        by rewrite app_assoc.
      * apply Forall_app. split; [done|].
        eapply Forall_impl; [apply response_widgets_no_warning|].
        intros w Hw body ->. by destruct (Hw body).
Qed.

(** X4. The query handler never raises, whatever the services do, and it
    never draws the warning ["No ChromaDB found. ..."] of its closing
    [except] clause, not even when the store is missing: that clause is
    not reachable. *)
Theorem chat_tab_never_reports_missing_store (question : str) (num_chunks : nat)
    (σ : State) :
  (analyze_logs_click question num_chunks σ).1 = inr tt /\
  exists ws : list widget,
    screen (analyze_logs_click question num_chunks σ).2 = screen σ ++ ws /\
    no_chroma_warning ∉ ws.
Proof.
  destruct (analyze_logs_click_screen question num_chunks σ)
    as (Hret & ws & Hscreen & Hws).
  split; [exact Hret|]. exists ws. split; [exact Hscreen|].
  intros Hin. rewrite Forall_forall in Hws.
  destruct (Hws _ Hin _ eq_refl) as [Heq|Heq]; discriminate Heq.
Qed.

(** X5. One click sends at most one prompt to the model, and sends one
    exactly when the key is set, the question is not empty, the retrieval
    returned at least one document and the environment accepts the key;
    the prompt is then the one built from the question and the retrieved
    documents. *)
Theorem one_prompt_per_answered_click (question : str) (num_chunks : nat)
    (σ : State) :
  let key := default [] (environ σ !! py "OPENAI_API_KEY") in
  let docs := match (get_relevant_chunks question key num_chunks σ).1 with
              | inr docs => docs
              | inl _ => []
              end in
  let σ' := (analyze_logs_click question num_chunks σ).2 in
  (truthy (environ σ !! py "OPENAI_API_KEY") = true /\ question <> [] /\
   docs <> [] /\ environ_rejects key = None ->
   requests σ' = requests σ ++ [context_text question (map context_entry docs)]) /\
  (~ (truthy (environ σ !! py "OPENAI_API_KEY") = true /\ question <> [] /\
      docs <> [] /\ environ_rejects key = None) ->
   requests σ' = requests σ).
Proof.
  cbv zeta. rewrite analyze_logs_click_spec. cbv zeta. cbn [snd].
  set (key := default [] (environ σ !! py "OPENAI_API_KEY")).
  destruct (truthy _); [|split; [intros (? & _); done|done]].
  destruct question as [|c question]; [split; [intros (_ & ? & _); done|done]|].
  pose proof (get_relevant_chunks_frame (c :: question) key num_chunks σ)
    as (_ & _ & Hreq).
  destruct (get_relevant_chunks (c :: question) key num_chunks σ) as [[e|docs] σ1];
    cbn [fst snd] in *.
  { split; [intros (_ & _ & ? & _); done|done]. }
  destruct docs as [|doc docs].
  { split; [intros (_ & _ & ? & _); done|done]. }
  pose proof (analyze_logs_with_agent_state (c :: question) (doc :: docs) key σ1)
    as (_ & _ & _ & Hrun).
  assert (Hσ' : requests
      match (analyze_logs_with_agent (c :: question) (doc :: docs) key σ1).1 with
      | inl _ => (analyze_logs_with_agent (c :: question) (doc :: docs) key σ1).2
      | inr response =>
          drawn (response_widgets response)
            (analyze_logs_with_agent (c :: question) (doc :: docs) key σ1).2
      end = requests (analyze_logs_with_agent (c :: question) (doc :: docs) key σ1).2).
  { by destruct (analyze_logs_with_agent _ _ _ _).1. }
  rewrite Hσ', Hrun, Hreq. split.
  - intros (_ & _ & _ & ->). done.
  - intros Hnot. destruct (environ_rejects key); [done|].
    destruct Hnot. done.
Qed.

(** X6. The query handler leaves the environment and the store as they
    were: the key the agent writes into [os.environ] is the key the
    handler read from it. *)
Theorem chat_tab_keeps_environment_and_store (question : str) (num_chunks : nat)
    (σ : State) :
  environ (analyze_logs_click question num_chunks σ).2 = environ σ /\
  chroma_db (analyze_logs_click question num_chunks σ).2 = chroma_db σ.
Proof.
  rewrite analyze_logs_click_spec. cbv zeta. cbn [snd].
  destruct (environ σ !! py "OPENAI_API_KEY") as [key|] eqn:Hkey; [|done].
  destruct (truthy (Some key)); [|done].
  destruct question as [|c question]; [done|]. cbn [default from_option id].
  pose proof (get_relevant_chunks_frame (c :: question) key num_chunks σ)
    as (Henv & Hdb & _).
  destruct (get_relevant_chunks (c :: question) key num_chunks σ) as [[e|docs] σ1];
    cbn [fst snd] in *; [done|].
  destruct docs as [|doc docs]; [done|].
  pose proof (analyze_logs_with_agent_state (c :: question) (doc :: docs) key σ1)
    as (Hdb' & _ & Henv' & _).
  assert (Henv'' : environ (analyze_logs_with_agent (c :: question) (doc :: docs) key σ1).2
                   = environ σ).
  { rewrite Henv', Henv. destruct (environ_rejects key); [done|]. by apply insert_id. }
  destruct (analyze_logs_with_agent (c :: question) (doc :: docs) key σ1)
    as [[e|response] σ2]; cbn [fst snd drawn environ chroma_db] in *;
    split; congruence.
Qed.

End ChatTab.

Section UploadTab.
Context `{PyFloat} `{Services}.

(** ** The upload handler, outcome by outcome *)


(** Blank text is not JSON. *)
Lemma json_loads_blank (text : str) : skip_ws text = [] -> json_loads text = None.
Proof. intros Hblank. unfold json_loads. by rewrite Hblank. Qed.

(** X8. An upload that is empty, or holds nothing but white space, is
    reported as ["Invalid JSON file"]; nothing else is drawn and nothing
    is stored. *)
Theorem blank_upload_is_invalid_json (file : str) (σ : State) :
  truthy (environ σ !! py "OPENAI_API_KEY") = true ->
  skip_ws file = [] ->
  process_json_logs (Some file) σ
    = (inr tt, draw (st_error (py "Invalid JSON file")) σ).
Proof.
  intros Hkey Hblank.
  rewrite process_json_logs_spec, Hkey, (json_loads_blank _ Hblank). reflexivity.
Qed.

(** X9. Two successful uploads in a row store both batches, the second
    after the first, on top of what the store held; the documents of each
    batch are numbered from 0 again, so that uploading the same array
    twice stores every record twice, under the same index. *)
Theorem second_upload_appends (file1 file2 : str) (entries1 entries2 : list json)
    (chunks1 chunks2 : list EmbeddedChunk) (σ : State) :
  let key := default [] (environ σ !! py "OPENAI_API_KEY") in
  truthy (environ σ !! py "OPENAI_API_KEY") = true ->
  json_loads file1 = Some (JList entries1) ->
  json_loads file2 = Some (JList entries2) ->
  embed_documents key (documents_loop 0 entries1 []) = inr chunks1 ->
  embed_documents key (documents_loop 0 entries2 []) = inr chunks2 ->
  let σ'' := ((process_json_logs (Some file1);; process_json_logs (Some file2)) σ).2 in
  chroma_db σ'' = Some (default [] (chroma_db σ) ++ chunks1 ++ chunks2) /\
  chunk_doc <$> (chunks1 ++ chunks2)
    = imap document_of entries1 ++ imap document_of entries2.
Proof.
  intros key Hkey Hload1 Hload2 Hembed1 Hembed2. cbv zeta.
  unfold mbind, M_bind. rewrite process_json_logs_spec, Hkey, Hload1.
  cbn [negb]. cbv zeta. fold key. rewrite Hembed1.
  rewrite process_json_logs_spec.
  cbn [draw stored environ]. rewrite Hkey, Hload2. cbn [negb]. cbv zeta.
  fold key. rewrite Hembed2. split.
  - cbn [snd draw stored chroma_db default from_option id].
    by rewrite <- app_assoc.
  - rewrite fmap_app, (embed_documents_docs _ _ _ Hembed1),
      (embed_documents_docs _ _ _ Hembed2), !documents_loop_spec. reflexivity.
Qed.

End UploadTab.

Section AgentAlone.
Context `{PyFloat} `{Services}.

(** ** The agent, called on its own *)

(** X10. For every list of chunks, the empty one included,
    [analyze_logs_with_agent] sends exactly one prompt to the model, built
    from the question and one entry per chunk, and leaves the store and
    the screen untouched; the only exception is a key that the environment
    rejects, for which it sends nothing and changes nothing. *)
Theorem agent_sends_one_prompt (question : str) (relevant_chunks : list Document)
    (api_key : str) (σ : State) :
  let σ' := (analyze_logs_with_agent question relevant_chunks api_key σ).2 in
  chroma_db σ' = chroma_db σ /\ screen σ' = screen σ /\
  (environ_rejects api_key = None ->
   exists context_logs : list json,
     length context_logs = length relevant_chunks /\
     requests σ' = requests σ ++ [context_text question context_logs]) /\
  (environ_rejects api_key <> None -> σ' = σ).
Proof.
  cbv zeta. rewrite analyze_logs_with_agent_spec. cbv zeta.
  destruct (environ_rejects api_key) as [e|]; cbn [snd].
  - repeat split; done.
  - repeat split; try done. intros _.
    exists (map context_entry relevant_chunks). by rewrite length_map.
Qed.

(** ** Texts and records *)

(** X12. Two well-formed records that are stored under the same text are
    the same record: on well-formed values [json.dumps] is injective. *)
Theorem equal_text_equal_record (x y : json) :
  wf x -> wf y -> json_dumps x = json_dumps y -> x = y.
Proof.
  intros Hx Hy Heq.
  pose proof (scan_once_json_dumps x Hx) as Hsx.
  pose proof (scan_once_json_dumps y Hy) as Hsy.
  rewrite Heq, Hsy in Hsx. by injection Hsx.
Qed.

Lemma context_entry_document_of (i : nat) (x : json) :
  wf x -> context_entry (document_of i x) = x.
Proof.
  intros Hwf. unfold context_entry, document_of, json_loads. cbn [page_content].
  by rewrite scan_once_json_dumps.
Qed.

End AgentAlone.

Section Retrieval.
Context `{Services}.

(** ** How many documents a search returns *)

(** X13. When the store exists and the question can be embedded,
    [get_relevant_chunks] draws nothing and returns exactly
    [min(k, size of the store)] documents: none for [k = 0], and, once [k]
    reaches the size of the store, every stored document, each as many
    times as it is stored. *)
Theorem search_returns_min_k_size (question api_key : str) (k : nat)
    (σ : State) (chunks : list EmbeddedChunk) (q : vector) :
  chroma_db σ = Some chunks ->
  embed api_key question = inr q ->
  exists docs : list Document,
    get_relevant_chunks question api_key k σ = (inr docs, σ) /\
    length docs = (k `min` length chunks)%nat /\
    ((length chunks <= k)%nat -> docs ≡ₚ chunk_doc <$> chunks).
Proof.
  intros Hstore Hq.
  rewrite get_relevant_chunks_spec. unfold search. rewrite Hstore, Hq.
  cbn [fst]. eexists. split; [reflexivity|]. split.
  - rewrite length_fmap, length_take.
    by rewrite (Permutation_length (merge_sort_Permutation _ _)).
  - intros Hk. rewrite take_ge.
    + by rewrite merge_sort_Permutation.
    + by rewrite (Permutation_length (merge_sort_Permutation _ _)).
Qed.

End Retrieval.

Section UploadThenQuery.
Context `{PyFloat} `{Services}.

(** ** From upload to prompt *)

(** X14. Upload, then ask.  With no store before, an uploaded array of
    [N >= 1] well-formed records that embeds, then a click on "Analyze
    Logs" with a non-empty question that embeds and [k >= 1], sends the
    model exactly one prompt, and the context of that prompt is made of
    [min(k, N)] of the uploaded records, read back from the store as they
    were uploaded. *)
Theorem upload_then_query (file question api_key : str) (entries : list json)
    (chunks : list EmbeddedChunk) (q : vector) (k : nat) (σ : State) :
  environ σ !! py "OPENAI_API_KEY" = Some api_key ->
  api_key <> [] -> environ_rejects api_key = None ->
  chroma_db σ = None ->
  json_loads file = Some (JList entries) ->
  Forall wf entries -> entries <> [] ->
  embed_documents api_key (documents_loop 0 entries []) = inr chunks ->
  question <> [] -> embed api_key question = inr q -> (1 <= k)%nat ->
  let σ' := ((process_json_logs (Some file);; analyze_logs_click question k) σ).2 in
  exists context_logs : list json,
    requests σ' = requests σ ++ [context_text question context_logs] /\
    length context_logs = (k `min` length entries)%nat /\
    forall x : json, x ∈ context_logs -> x ∈ entries.
Proof.
  intros Hkey Hk Hok Hstore Hload Hwf Hne Hembed Hq Hqv Hk1. cbv zeta.
  assert (Htruthy : truthy (environ σ !! py "OPENAI_API_KEY") = true).
  { rewrite Hkey. by destruct api_key. }
  pose proof (embed_documents_docs _ _ _ Hembed) as Hdocs.
  rewrite documents_loop_spec in Hdocs. cbn [app] in Hdocs.
  assert (Hlen : length chunks = length entries).
  { by rewrite <- (length_fmap chunk_doc), Hdocs, length_imap. }
  unfold mbind, M_bind.
  rewrite process_json_logs_spec, Htruthy, Hload. cbn [negb]. cbv zeta.
  assert (Hdef : default [] (environ σ !! py "OPENAI_API_KEY") = api_key)
    by exact (f_equal (from_option id []) Hkey).
  rewrite Hdef, Hembed.
  set (σ1 := draw _ (draw _ (stored chunks (draw _ σ)))).
  assert (Hkey1 : environ σ1 !! py "OPENAI_API_KEY" = Some api_key) by exact Hkey.
  assert (Hstore1 : chroma_db σ1 = Some chunks).
  { unfold σ1. cbn [draw stored chroma_db]. by rewrite Hstore. }
  assert (Hreq1 : requests σ1 = requests σ) by reflexivity.
  set (results := take k (merge_sort (closer q) chunks)).
  assert (Hretr : get_relevant_chunks question api_key k σ1
                  = (inr (chunk_doc <$> results), σ1)).
  { rewrite get_relevant_chunks_spec. unfold search. by rewrite Hstore1, Hqv. }
  assert (Hresults : length results = (k `min` length entries)%nat).
  { unfold results.
    by rewrite length_take, (Permutation_length (merge_sort_Permutation _ _)), Hlen. }
  assert (Hdocs_ne : chunk_doc <$> results <> []).
  { intros Hnil. apply (f_equal length) in Hnil.
    rewrite length_fmap, Hresults in Hnil.
    destruct entries; [done|]. simpl in Hnil. lia. }
  destruct (analyze_logs_click_answered question k api_key (chunk_doc <$> results) σ1
              Hkey1 Hk Hq Hdocs_ne) as (response & _ & Hclick).
  { by rewrite Hretr. }
  rewrite Hclick. rewrite Hretr. cbn [snd drawn requests].
  pose proof (analyze_logs_with_agent_state question (chunk_doc <$> results)
                api_key σ1) as (_ & _ & _ & Hrequests).
  rewrite Hok in Hrequests. rewrite Hrequests, Hreq1.
  exists (map context_entry (chunk_doc <$> results)). split; [done|]. split.
  - by rewrite length_map, length_fmap.
  - intros x Hx. apply list_elem_of_fmap in Hx as (doc & -> & Hdoc).
    assert (Hin : doc ∈ chunk_doc <$> chunks).
    { apply list_elem_of_fmap in Hdoc as (c & -> & Hc).
      apply list_elem_of_fmap. exists c. split; [done|].
      unfold results in Hc. apply elem_of_take in Hc as (i & Hi & _).
      apply list_elem_of_lookup_2 in Hi.
      by rewrite merge_sort_Permutation in Hi. }
    rewrite Hdocs in Hin. apply list_elem_of_lookup in Hin as (i & Hi).
    rewrite list_lookup_imap in Hi.
    destruct (entries !! i) as [entry|] eqn:Hentry; [|done].
    injection Hi as <-. rewrite context_entry_document_of.
    + by apply list_elem_of_lookup_2 in Hentry.
    + rewrite Forall_forall in Hwf. apply Hwf.
      by apply list_elem_of_lookup_2 in Hentry.
Qed.

End UploadThenQuery.

(** ** The further properties at work on the two-record scenario *)

Lemma answered_click_draws_response_witness :
  exists response : LogAnalysisResponse,
    (@analyze_logs_with_agent toy_float demo_services (py "show me errors") first_hit
       (py "sk-test")
       (@get_relevant_chunks demo_services (py "show me errors") (py "sk-test") 1 ingested).2).1
      = inr response /\
    (@analyze_logs_click toy_float demo_services (py "show me errors") 1 ingested).1 = inr tt /\
    screen (@analyze_logs_click toy_float demo_services (py "show me errors") 1 ingested).2
      = screen (@get_relevant_chunks demo_services (py "show me errors") (py "sk-test") 1 ingested).2
        ++ response_widgets response /\
    length (response_widgets response)
      = match relevant_logs response with
        | [] => 3%nat
        | logs => (4 + 3 * length logs)%nat
        end.
Proof.
  apply (@answered_click_draws_response toy_float demo_services
           (py "show me errors") 1%nat (py "sk-test") first_hit ingested);
    try discriminate; vm_compute; reflexivity.
Defined.

Lemma failed_model_call_is_drawn_as_answer_witness :
  screen (@analyze_logs_click toy_float mute_services (py "show me errors") 1 ingested).2
    = screen (@get_relevant_chunks mute_services (py "show me errors") (py "sk-test") 1 ingested).2
      ++ [ st_subheader (0x1f4ca :: py " Analysis Results");
           st_markdown (py "### " ++ 0x1f4a1 :: py " Answer");
           st_write (py "Error analyzing logs: "
                     ++ exception_str (ProviderError (py "Connection error."))) ].
Proof.
  apply (@failed_model_call_is_drawn_as_answer toy_float mute_services
           (py "show me errors") 1%nat (py "sk-test") first_hit ingested);
    try discriminate; vm_compute; reflexivity.
Defined.

Lemma blank_upload_is_invalid_json_witness :
  truthy (environ configured !! py "OPENAI_API_KEY") = true /\
  skip_ws (py "  ") = [] /\
  @process_json_logs toy_float demo_services (Some (py "  ")) configured
    = (inr tt, draw (st_error (py "Invalid JSON file")) configured).
Proof.
  assert (H1 : truthy (environ configured !! py "OPENAI_API_KEY") = true)
    by (vm_compute; reflexivity).
  assert (H2 : skip_ws (py "  ") = []) by reflexivity.
  exact (conj H1 (conj H2
    (@blank_upload_is_invalid_json toy_float demo_services (py "  ") configured H1 H2))).
Defined.

Lemma second_upload_appends_witness :
  chroma_db ((@process_json_logs toy_float demo_services (Some two_logs_file);;
              @process_json_logs toy_float demo_services (Some two_logs_file)) configured).2
    = Some (default [] (chroma_db configured) ++ two_chunks ++ two_chunks) /\
  chunk_doc <$> (two_chunks ++ two_chunks)
    = imap (@document_of toy_float) two_logs ++ imap (@document_of toy_float) two_logs.
Proof.
  apply (@second_upload_appends toy_float demo_services
           two_logs_file two_logs_file two_logs two_logs two_chunks two_chunks configured);
    vm_compute; reflexivity.
Defined.

Lemma equal_text_equal_record_witness :
  @wf toy_float (JList two_logs) /\
  @json_dumps toy_float (JList two_logs) = two_logs_file /\
  JList two_logs = JList two_logs.
Proof.
  assert (Hwf : @wf toy_float (JList two_logs)).
  { repeat split; try closed_text;
      apply (bool_decide_unpack _); vm_compute; exact I. }
  assert (Heq : @json_dumps toy_float (JList two_logs) = two_logs_file)
    by reflexivity.
  exact (conj Hwf (conj Heq
    (@equal_text_equal_record toy_float (JList two_logs) (JList two_logs) Hwf Hwf eq_refl))).
Defined.

Lemma search_returns_min_k_size_witness :
  exists docs : list Document,
    @get_relevant_chunks demo_services (py "show me errors") (py "sk-test") 1 ingested
      = (inr docs, ingested) /\
    length docs = (1 `min` length two_chunks)%nat /\
    ((length two_chunks <= 1)%nat -> docs ≡ₚ chunk_doc <$> two_chunks).
Proof.
  apply (@search_returns_min_k_size demo_services (py "show me errors") (py "sk-test")
           1%nat ingested two_chunks []); reflexivity.
Defined.

Lemma upload_then_query_witness :
  exists context_logs : list json,
    requests ((@process_json_logs toy_float demo_services (Some two_logs_file);;
               @analyze_logs_click toy_float demo_services (py "show me errors") 1)
                configured).2
      = requests configured ++ [@context_text toy_float (py "show me errors") context_logs] /\
    length context_logs = (1 `min` length two_logs)%nat /\
    forall x : json, x ∈ context_logs -> x ∈ two_logs.
Proof.
  apply (@upload_then_query toy_float demo_services two_logs_file (py "show me errors")
           (py "sk-test") two_logs two_chunks [] 1%nat configured);
    try discriminate; try lia; try reflexivity.
  repeat constructor; try closed_text;
    apply (bool_decide_unpack _); vm_compute; exact I.
Defined.

Lemma context_of_ingested_entries_witness :
  Forall (@wf toy_float) two_logs /\
  @context_loop toy_float (@documents_loop toy_float 0 two_logs []) [] fresh
    = (inr two_logs, fresh).
Proof.
  assert (Hwf : Forall (@wf toy_float) two_logs).
  { repeat constructor; try closed_text;
      apply (bool_decide_unpack _); vm_compute; exact I. }
  exact (conj Hwf (@context_of_ingested_entries toy_float two_logs fresh Hwf)).
Defined.
